(** * I2CDevice: the PIC18 I2C master driver and its register access layer

    A shallow embedding of [I2CDevice.c] (bus signalling primitives, byte
    transactions, bit-field helpers) and the properties its specification
    states about it.

    Conventions.
    - C integers are [Z]. [unsigned char] is 8 bits and every conversion to
      it is written [u8]. Arithmetic follows ISO C: operands of type
      [unsigned char] are promoted to [int], which is 16 bits on PIC18
      ([INT_BITS]), before any operator is applied.
    - A call either returns ([Done]), reaches behaviour ISO C leaves
      undefined ([Undefined]: a shift whose count or result does not fit
      [int], an access outside the caller's buffer), or is still running
      when the fuel of a loop is used up ([Timeout]).
    - The caller's buffer [unsigned char *data] is a [list Z]; a function that
      writes through the pointer returns the updated list. *)

From Stdlib Require Import ZArith Lia Bool.
From stdpp Require Import base list.

Local Open Scope Z_scope.

(** ** C integer model *)

Definition u8 (x : Z) : Z := x mod 256.

Definition INT_BITS : Z := 16.
Definition INT_MAX : Z := 32767.

(** [a << n] at type [int]: defined when the count is in range, [a] is not
    negative and the result is representable. *)
Definition shl_int (a n : Z) : option Z :=
  if (0 <=? n) && (n <? INT_BITS) && (0 <=? a) && (Z.shiftl a n <=? INT_MAX)
  then Some (Z.shiftl a n) else None.

(** [a >> n] at type [int], for [a] not negative. *)
Definition shr_int (a n : Z) : option Z :=
  if (0 <=? n) && (n <? INT_BITS) && (0 <=? a)
  then Some (Z.shiftr a n) else None.

(** ** Outcomes and the program monad *)

Inductive outcome (A : Type) : Type :=
| Done (a : A)
| Undefined
| Timeout.
Arguments Done {A} a.
Arguments Undefined {A}.
Arguments Timeout {A}.

Definition obind {A C : Type} (o : outcome A) (k : A -> outcome C) : outcome C :=
  match o with
  | Done a => k a
  | Undefined => Undefined
  | Timeout => Timeout
  end.

(** An undefined C operation. *)
Definition ub {A : Type} (o : option A) : outcome A :=
  match o with
  | Some a => Done a
  | None => Undefined
  end.

(** A program over a bus state [B]. *)
Definition prog (B A : Type) : Type := B -> outcome (A * B).

Definition ret {B A : Type} (a : A) : prog B A := fun s => Done (a, s).

Definition bind {B A C : Type} (m : prog B A) (k : A -> prog B C) : prog B C :=
  fun s => match m s with
           | Done (a, s') => k a s'
           | Undefined => Undefined
           | Timeout => Timeout
           end.

Definition lift {B A : Type} (o : outcome A) : prog B A :=
  fun s => obind o (fun a => Done (a, s)).

Declare Scope prog_scope.
Delimit Scope prog_scope with prog.
Notation "'let*' x ':=' m 'in' k" := (bind m (fun x => k))
  (at level 10, x name, m at level 100, k at level 200) : prog_scope.
Notation "'run' m ;; k" := (bind m (fun _ => k))
  (at level 10, m at level 99, k at level 200) : prog_scope.

(** ** The caller's buffer *)

(** [data[i]] as an rvalue. *)
Definition load (data : list Z) (i : Z) : outcome Z :=
  ub (if 0 <=? i then data !! Z.to_nat i else None).

(** [data[i] = x]. *)
Definition store (data : list Z) (i x : Z) : outcome (list Z) :=
  if (0 <=? i) && (i <? Z.of_nat (length data))
  then Done (<[Z.to_nat i := x]> data) else Undefined.

(** ** Bus signalling primitives, as an interface

    The register access layer only calls the seven primitives. [I2CWrite]
    returns its status byte, [I2CRead] the byte received. *)

Class I2CBus (B : Type) : Type := {
  I2CStart : prog B unit;
  I2CRestart : prog B unit;
  I2CStop : prog B unit;
  I2CAck : prog B unit;
  I2CNotAck : prog B unit;
  I2CWrite : Z -> prog B Z;
  I2CRead : prog B Z
}.

(** ** Register access layer *)

Section RegisterLayer.
Context {B : Type} `{I2CBus B}.
Local Open Scope prog_scope.

(** The loop of [I2CDeviceReadBytes]:
    [for (...; i < length; i++) { data[i] = I2CRead(); ... }]. *)
Fixpoint ReadBytes_loop (fuel : nat) (i length : Z) (data : list Z)
  : prog B (list Z) :=
  match fuel with
  | O => fun _ => Timeout
  | S fuel' =>
      if i <? length then
        let* x := I2CRead in
        let* data' := lift (store data i x) in
        run (if i =? length - 1 then I2CNotAck else I2CAck) ;;
        ReadBytes_loop fuel' (u8 (i + 1)) length data'
      else ret data
  end.

Definition I2CDeviceReadBytes (fuel : nat) (deviceAddress address length : Z)
    (data : list Z) : prog B (list Z) :=
  run I2CStart ;;
  run I2CWrite (u8 (Z.land deviceAddress 0xFE)) ;;
  run I2CWrite address ;;
  run I2CRestart ;;
  run I2CWrite (u8 (Z.lor deviceAddress 0x01)) ;;
  let* data' := ReadBytes_loop fuel 0 length data in
  run I2CStop ;;
  ret data'.

(** The loop of [I2CDeviceWriteBytes]:
    [for (i = 0; i < length; i++) { I2CWrite(data[i]); }]. *)
Fixpoint WriteBytes_loop (fuel : nat) (i length : Z) (data : list Z)
  : prog B unit :=
  match fuel with
  | O => fun _ => Timeout
  | S fuel' =>
      if i <? length then
        let* x := lift (load data i) in
        run I2CWrite x ;;
        WriteBytes_loop fuel' (u8 (i + 1)) length data
      else ret tt
  end.

Definition I2CDeviceWriteBytes (fuel : nat) (deviceAddress address length : Z)
    (data : list Z) : prog B unit :=
  run I2CStart ;;
  run I2CWrite (u8 (Z.land deviceAddress 0xFE)) ;;
  run I2CWrite address ;;
  run WriteBytes_loop fuel 0 length data ;;
  I2CStop.

(** [unsigned char b = 0; I2CDeviceReadBytes(.., 1, &b); return b;] *)
Definition I2CDeviceReadByte (fuel : nat) (deviceAddress address : Z)
  : prog B Z :=
  let* data := I2CDeviceReadBytes fuel deviceAddress address 1 [0] in
  lift (load data 0).

(** [I2CDeviceWriteBytes(deviceAddress, address, 1, &value);] *)
Definition I2CDeviceWriteByte (fuel : nat) (deviceAddress address value : Z)
  : prog B unit :=
  I2CDeviceWriteBytes fuel deviceAddress address 1 [value].

(** [return (I2CDeviceReadByte(deviceAddress, address) & (1 << _bit));] *)
Definition I2CDeviceReadBit (fuel : nat) (deviceAddress address _bit : Z)
  : prog B Z :=
  let* b := I2CDeviceReadByte fuel deviceAddress address in
  let* m := lift (ub (shl_int 1 _bit)) in
  ret (u8 (Z.land b m)).

(** The loop of [I2CDeviceReadBits]:
    [for (i = bitStart; i > bitStart - length; i--) r |= (b & (1 << i));]
    The counter [i] is an [unsigned char]; the bound [bitStart - length] is
    computed, and compared with [i], at type [int]. *)
Fixpoint ReadBits_loop (fuel : nat) (i bitStart length b r : Z) : outcome Z :=
  match fuel with
  | O => Timeout
  | S fuel' =>
      if i >? bitStart - length then
        obind (ub (shl_int 1 i)) (fun m =>
        ReadBits_loop fuel' (u8 (i - 1)) bitStart length b
                      (u8 (Z.lor r (Z.land b m))))
      else Done r
  end.

Definition I2CDeviceReadBits (fuel : nat)
    (deviceAddress address bitStart length : Z) : prog B Z :=
  let* b := I2CDeviceReadByte fuel deviceAddress address in
  let* r := lift (ReadBits_loop fuel bitStart bitStart length b 0) in
  let* r' := lift (ub (shr_int r (bitStart - length + 1))) in
  ret (u8 r').

(** [b = value ? (b | (1 << _bit)) : (b & ~(1 << _bit));] *)
Definition I2CDeviceWriteBit (fuel : nat)
    (deviceAddress address _bit value : Z) : prog B unit :=
  let* b := I2CDeviceReadByte fuel deviceAddress address in
  let* m := lift (ub (shl_int 1 _bit)) in
  let b' := if value =? 0 then u8 (Z.land b (Z.lnot m))
            else u8 (Z.lor b m) in
  I2CDeviceWriteByte fuel deviceAddress address b'.

Definition I2CDeviceWriteBits (fuel : nat)
    (deviceAddress address bitStart length value : Z) : prog B unit :=
  let* b := I2CDeviceReadByte fuel deviceAddress address in
  let* hi := lift (ub (shl_int 0xFF (8 - length))) in
  let* lo := lift (ub (shr_int 0xFF (bitStart + length - 1))) in
  let mask := u8 (Z.lor hi lo) in
  let* v1 := lift (ub (shl_int value (8 - length))) in
  let value1 := u8 v1 in
  let* v2 := lift (ub (shr_int value1 (7 - bitStart))) in
  let value2 := u8 v2 in
  let b1 := u8 (Z.land b mask) in
  let b2 := u8 (Z.lor b1 value2) in
  I2CDeviceWriteByte fuel deviceAddress address b2.

End RegisterLayer.

(** ** The MSSP hardware and the primitives as the source writes them

    The special function registers the primitives touch are bytes. The
    positions of the named bit-fields come from the device header
    [p18cxxx.h], which is not part of the sources, and are kept as a
    parameter ([layout]); [pic18_layout] gives the values of the PIC18 data
    sheet. What the peripheral does on its own is a parameter too
    ([hardware]): its reaction to a store into [SSP1BUF], to a read of
    [SSP1BUF], and its progress between two polls of a flag. *)

Module MSSP.

Record sfr : Type := {
  SSP1BUF : Z;
  SSP1CON1 : Z;
  SSP1CON2 : Z;
  SSP1STAT : Z;
  PIR1 : Z
}.

Record layout : Type := {
  SEN : Z; RSEN : Z; PEN : Z; RCEN : Z; ACKEN : Z; ACKDT : Z; ACKSTAT : Z;
  WCOL : Z; CKP : Z;
  R_W : Z; BF : Z;
  SSP1IF : Z
}.

Definition pic18_layout : layout := {|
  SEN := 0; RSEN := 1; PEN := 2; RCEN := 3; ACKEN := 4; ACKDT := 5;
  ACKSTAT := 6;
  WCOL := 7; CKP := 4;
  R_W := 2; BF := 0;
  SSP1IF := 3
|}.

Record hardware : Type := {
  bits : layout;
  on_load : Z -> sfr -> sfr;
  on_unload : sfr -> sfr;
  tick : sfr -> sfr
}.

Definition set_bit (r k : Z) : Z := u8 (Z.lor r (Z.shiftl 1 k)).
Definition clear_bit (r k : Z) : Z := u8 (Z.land r (Z.lnot (Z.shiftl 1 k))).

Definition with_CON1 (f : Z -> Z) (h : sfr) : sfr :=
  {| SSP1BUF := SSP1BUF h; SSP1CON1 := f (SSP1CON1 h);
     SSP1CON2 := SSP1CON2 h; SSP1STAT := SSP1STAT h; PIR1 := PIR1 h |}.

Definition with_CON2 (f : Z -> Z) (h : sfr) : sfr :=
  {| SSP1BUF := SSP1BUF h; SSP1CON1 := SSP1CON1 h;
     SSP1CON2 := f (SSP1CON2 h); SSP1STAT := SSP1STAT h; PIR1 := PIR1 h |}.

(** The status bytes of [I2CWrite]: [return (-1)] and [return (-2)] from a
    function that returns [unsigned char]. *)
Definition STATUS_OK : Z := 0.
Definition STATUS_COLLISION : Z := u8 (-1).
Definition STATUS_NACK : Z := u8 (-2).

Section Primitives.
Variable hw : hardware.
Variable fuel : nat.
Local Open Scope prog_scope.

Let L := bits hw.

(** [while (c);] *)
Fixpoint wait_while (c : sfr -> bool) (n : nat) : prog sfr unit :=
  fun h =>
    match n with
    | O => Timeout
    | S n' => if c h then wait_while c n' (tick hw h) else Done (tt, h)
    end.

Definition update (f : sfr -> sfr) : prog sfr unit := fun h => Done (tt, f h).
Definition read {A : Type} (f : sfr -> A) : prog sfr A := fun h => Done (f h, h).

Definition I2CStart : prog sfr unit :=
  run update (with_CON2 (fun r => set_bit r (SEN L))) ;;
  wait_while (fun h => Z.testbit (SSP1CON2 h) (SEN L)) fuel.

Definition I2CRestart : prog sfr unit :=
  run update (with_CON2 (fun r => set_bit r (RSEN L))) ;;
  wait_while (fun h => Z.testbit (SSP1CON2 h) (RSEN L)) fuel.

Definition I2CStop : prog sfr unit :=
  run update (with_CON2 (fun r => set_bit r (PEN L))) ;;
  wait_while (fun h => Z.testbit (SSP1CON2 h) (PEN L)) fuel.

Definition I2CAck : prog sfr unit :=
  run update (with_CON2 (fun r => clear_bit r (ACKDT L))) ;;
  run update (with_CON2 (fun r => set_bit r (ACKEN L))) ;;
  wait_while (fun h => Z.testbit (SSP1CON2 h) (ACKEN L)) fuel.

Definition I2CNotAck : prog sfr unit :=
  run update (with_CON2 (fun r => set_bit r (ACKDT L))) ;;
  run update (with_CON2 (fun r => set_bit r (ACKEN L))) ;;
  wait_while (fun h => Z.testbit (SSP1CON2 h) (ACKEN L)) fuel.

(** [(SSP1CON1 & 0x0F) == 0x08 || (SSP1CON1 & 0x0F) == 0x0B] *)
Definition master_mode (h : sfr) : bool :=
  (Z.land (SSP1CON1 h) 0x0F =? 0x08) || (Z.land (SSP1CON1 h) 0x0F =? 0x0B).

(** [(SSP1CON1 & 0x0F) != 0x08 && (SSP1CON1 & 0x0F) != 0x0B] *)
Definition other_mode (h : sfr) : bool :=
  negb (Z.land (SSP1CON1 h) 0x0F =? 0x08)
  && negb (Z.land (SSP1CON1 h) 0x0F =? 0x0B).

(** [(SSP1CON2 & 0x1F) | (SSP1STATbits.R_W)], as a loop condition. *)
Definition bus_busy (h : sfr) : bool :=
  negb (Z.lor (Z.land (SSP1CON2 h) 0x1F)
              (Z.b2z (Z.testbit (SSP1STAT h) (R_W L))) =? 0).

Definition I2CWrite (data_out : Z) : prog sfr Z :=
  run update (on_load hw data_out) ;;
  let* wcol := read (fun h => Z.testbit (SSP1CON1 h) (WCOL L)) in
  if wcol then ret STATUS_COLLISION
  else
    let* other := read other_mode in
    if other then
      run update (with_CON1 (fun r => set_bit r (CKP L))) ;;
      run wait_while (fun h => negb (Z.testbit (PIR1 h) (SSP1IF L))) fuel ;;
      let* nack := read (fun h => negb (Z.testbit (SSP1STAT h) (R_W L))
                                && negb (Z.testbit (SSP1STAT h) (BF L))) in
      if nack then ret STATUS_NACK else ret STATUS_OK
    else
      let* master := read master_mode in
      if master then
        run wait_while (fun h => Z.testbit (SSP1STAT h) (BF L)) fuel ;;
        run wait_while bus_busy fuel ;;
        let* ackstat := read (fun h => Z.testbit (SSP1CON2 h) (ACKSTAT L)) in
        if ackstat then ret STATUS_NACK else ret STATUS_OK
      else
        (* control reaches the end of a function that returns a value *)
        fun _ => Undefined.

Definition I2CRead : prog sfr Z :=
  let* master := read master_mode in
  run (if master then update (with_CON2 (fun r => set_bit r (RCEN L)))
       else ret tt) ;;
  run wait_while (fun h => negb (Z.testbit (SSP1STAT h) (BF L))) fuel ;;
  let* x := read SSP1BUF in
  run update (on_unload hw) ;;
  ret x.

End Primitives.

End MSSP.

(** The register access layer runs on the hardware through these. *)
#[export] Instance mssp_bus (hw : MSSP.hardware) (fuel : nat) : I2CBus MSSP.sfr := {|
  I2CStart := MSSP.I2CStart hw fuel;
  I2CRestart := MSSP.I2CRestart hw fuel;
  I2CStop := MSSP.I2CStop hw fuel;
  I2CAck := MSSP.I2CAck hw fuel;
  I2CNotAck := MSSP.I2CNotAck hw fuel;
  I2CWrite := MSSP.I2CWrite hw fuel;
  I2CRead := MSSP.I2CRead hw fuel
|}.

(** ** A recording bus

    Every primitive call is appended to a log. The status of the [k]-th
    [I2CWrite] and the byte of the [k]-th [I2CRead] are scripted, so that a
    property proved for every script holds whatever the slave answers. *)

Inductive bus_op : Type :=
| Start
| Restart
| Stop
| Ack
| NotAck
| Write (byte status : Z)
| Read (byte : Z).

Record recorder : Type := {
  log : list bus_op;
  status_of : nat -> Z;
  byte_of : nat -> Z;
  writes : nat;
  reads : nat
}.

Definition fresh (st rd : nat -> Z) : recorder :=
  {| log := []; status_of := st; byte_of := rd; writes := 0; reads := 0 |}.

Definition emit (e : bus_op) : prog recorder unit :=
  fun m => Done (tt, {| log := log m ++ [e]; status_of := status_of m;
                        byte_of := byte_of m; writes := writes m;
                        reads := reads m |}).

Definition rec_write (x : Z) : prog recorder Z :=
  fun m =>
    let st := status_of m (writes m) in
    Done (st, {| log := log m ++ [Write x st]; status_of := status_of m;
                 byte_of := byte_of m; writes := S (writes m);
                 reads := reads m |}).

Definition rec_read : prog recorder Z :=
  fun m =>
    let x := byte_of m (reads m) in
    Done (x, {| log := log m ++ [Read x]; status_of := status_of m;
                byte_of := byte_of m; writes := writes m;
                reads := S (reads m) |}).

#[export] Instance recorder_bus : I2CBus recorder := {|
  I2CStart := emit Start;
  I2CRestart := emit Restart;
  I2CStop := emit Stop;
  I2CAck := emit Ack;
  I2CNotAck := emit NotAck;
  I2CWrite := rec_write;
  I2CRead := rec_read
|}.

(** ** An idealized lossless bus

    One simulated register-file slave per device address. After a start
    condition the next byte written is the address byte: direction bit 0
    opens a write transfer whose first byte sets the register pointer and
    whose following bytes are stored at consecutive registers; direction bit
    1 opens a read transfer that returns the registers from the pointer on.
    Every byte is acknowledged and none is lost. *)

Inductive phase : Type :=
| Idle
| Addressing
| Pointer (dev : Z)
| Writing (dev : Z)
| Reading (dev : Z).

Record sim : Type := {
  regs : Z -> Z -> Z;
  ph : phase;
  ptr : Z
}.

Definition set_phase (p : phase) : prog sim unit :=
  fun s => Done (tt, {| regs := regs s; ph := p; ptr := ptr s |}).

Definition poke (d a x : Z) (r : Z -> Z -> Z) : Z -> Z -> Z :=
  fun d' a' => if (d' =? d) && (a' =? a) then x else r d' a'.

Definition sim_write (x : Z) : prog sim Z :=
  fun s =>
    let s' :=
      match ph s with
      | Addressing =>
          {| regs := regs s;
             ph := if Z.testbit x 0 then Reading (Z.land x 0xFE)
                   else Pointer (Z.land x 0xFE);
             ptr := ptr s |}
      | Pointer d => {| regs := regs s; ph := Writing d; ptr := x |}
      | Writing d =>
          {| regs := poke d (ptr s) x (regs s); ph := Writing d;
             ptr := u8 (ptr s + 1) |}
      | _ => s
      end in
    Done (0, s').

Definition sim_read : prog sim Z :=
  fun s =>
    match ph s with
    | Reading d =>
        Done (regs s d (ptr s),
              {| regs := regs s; ph := Reading d; ptr := u8 (ptr s + 1) |})
    | _ => Done (0xFF, s)
    end.

#[export] Instance sim_bus : I2CBus sim := {|
  I2CStart := set_phase Addressing;
  I2CRestart := set_phase Addressing;
  I2CStop := set_phase Idle;
  I2CAck := ret tt;
  I2CNotAck := ret tt;
  I2CWrite := sim_write;
  I2CRead := sim_read
|}.

(** ** Vocabulary of the statements *)

(** What the caller of a call gets back: the returned value, without the
    state of the bus. *)
Definition returned {A B : Type} (o : outcome (A * B)) : outcome A :=
  obind o (fun r => Done (fst r)).

(** Whether the call returns at all. *)
Definition returns {A : Type} (o : outcome A) : bool :=
  match o with
  | Done _ => true
  | _ => false
  end.

(** The recorder after it has logged [ops], [w] of them writes and [r] reads. *)
Definition after (m : recorder) (ops : list bus_op) (w r : nat) : recorder :=
  {| log := log m ++ ops; status_of := status_of m; byte_of := byte_of m;
     writes := writes m + w; reads := reads m + r |}.

(** The same recorder with another script of write statuses. *)
Definition with_statuses (st : nat -> Z) (m : recorder) : recorder :=
  {| log := log m; status_of := st; byte_of := byte_of m;
     writes := writes m; reads := reads m |}.

(** The log of a call on the recorder. *)
Definition trace {A : Type} (o : outcome (A * recorder)) : list bus_op :=
  match o with
  | Done (_, m) => log m
  | _ => []
  end.

(** The writes of the bytes [xs], the first of which is write number [k]. *)
Fixpoint write_ops (st : nat -> Z) (k : nat) (xs : list Z) : list bus_op :=
  match xs with
  | [] => []
  | x :: xs' => Write x (st k) :: write_ops st (S k) xs'
  end.

(** The reads of the bytes [xs]: an acknowledge after each but the last, a
    not-acknowledge after the last. *)
Fixpoint read_ops (xs : list Z) : list bus_op :=
  match xs with
  | [] => []
  | [x] => [Read x; NotAck]
  | x :: xs' => Read x :: Ack :: read_ops xs'
  end.

Definition is_acknowledge (e : bus_op) : bool :=
  match e with
  | Ack | NotAck => true
  | _ => false
  end.

(** "Abandoned on a NACK": no byte is written after a write that returned
    the NACK status. *)
Definition abandoned_on_nack (ops : list bus_op) : Prop :=
  forall pre x post,
    ops = pre ++ Write x MSSP.STATUS_NACK :: post ->
    forall y st, Write y st ∉ post.

(** A script in which write number [k] is not acknowledged and every other
    write is. *)
Definition nack_at (k : nat) : nat -> Z :=
  fun j => if Nat.eqb j k then MSSP.STATUS_NACK else MSSP.STATUS_OK.

(** A simulated slave all of whose registers hold [v], bus idle. *)
Definition sim_filled (v : Z) : sim :=
  {| regs := fun _ _ => v; ph := Idle; ptr := 0 |}.

(** The value returned together with register [a] of device [d] afterwards. *)
Definition with_register {A : Type} (d a : Z) (o : outcome (A * sim))
  : outcome (A * Z) :=
  obind o (fun r => Done (fst r, regs (snd r) d a)).

(** What [I2CWrite] takes for "not acknowledged": [ACKSTAT] in the two master
    modes, and in the other modes [R_W] and [BF] both clear once the
    interrupt flag is up. *)
Definition nack_seen (L : MSSP.layout) (master : bool) (h : MSSP.sfr) : bool :=
  if master then Z.testbit (MSSP.SSP1CON2 h) (MSSP.ACKSTAT L)
  else negb (Z.testbit (MSSP.SSP1STAT h) (MSSP.R_W L))
       && negb (Z.testbit (MSSP.SSP1STAT h) (MSSP.BF L)).

(** A peripheral in master mode whose slave acknowledges: a store into
    [SSP1BUF] raises [BF], and by the next poll the byte is out, the bus is
    idle and [ACKSTAT] is clear. *)
Definition acking_mssp : MSSP.hardware := {|
  MSSP.bits := MSSP.pic18_layout;
  MSSP.on_load := fun d h =>
    {| MSSP.SSP1BUF := d; MSSP.SSP1CON1 := MSSP.SSP1CON1 h;
       MSSP.SSP1CON2 := MSSP.SSP1CON2 h;
       MSSP.SSP1STAT := MSSP.set_bit (MSSP.SSP1STAT h) 0;
       MSSP.PIR1 := MSSP.PIR1 h |};
  MSSP.on_unload := fun h =>
    {| MSSP.SSP1BUF := MSSP.SSP1BUF h; MSSP.SSP1CON1 := MSSP.SSP1CON1 h;
       MSSP.SSP1CON2 := MSSP.SSP1CON2 h;
       MSSP.SSP1STAT := MSSP.clear_bit (MSSP.SSP1STAT h) 0;
       MSSP.PIR1 := MSSP.PIR1 h |};
  MSSP.tick := fun h =>
    {| MSSP.SSP1BUF := MSSP.SSP1BUF h; MSSP.SSP1CON1 := MSSP.SSP1CON1 h;
       MSSP.SSP1CON2 := 0; MSSP.SSP1STAT := 0; MSSP.PIR1 := 8 |}
|}.

(** The registers after [SSPEN] and master mode [SSPM = 1000] are set. *)
Definition master_idle : MSSP.sfr :=
  {| MSSP.SSP1BUF := 0; MSSP.SSP1CON1 := 0x28; MSSP.SSP1CON2 := 0;
     MSSP.SSP1STAT := 0; MSSP.PIR1 := 0 |}.

(** Bits [[s-n+1 .. s]] of [b], right-aligned. *)
Definition bit_field (b s n : Z) : Z :=
  Z.land (Z.shiftr b (s - n + 1)) (Z.ones n).

(** The integers [lo, lo+1, ..., lo+k-1]. *)
Definition Zrange (lo : Z) (k : nat) : list Z :=
  map (fun i => lo + Z.of_nat i) (seq 0 k).

(** The pure part of [I2CDeviceReadBits] gives the field, with fuel 9. *)
Definition reads_field (n s b : Z) : bool :=
  match ReadBits_loop 9 s s n b 0 with
  | Done r =>
      match shr_int r (s - n + 1) with
      | Some r' => u8 r' =? bit_field b s n
      | None => false
      end
  | _ => false
  end.


(** ** Further vocabulary: the peripheral *)

(** A peripheral that makes no progress: nothing changes between two polls
    (a disconnected or stuck bus). *)
Definition dead_mssp : MSSP.hardware := {|
  MSSP.bits := MSSP.pic18_layout;
  MSSP.on_load := fun d h =>
    {| MSSP.SSP1BUF := d; MSSP.SSP1CON1 := MSSP.SSP1CON1 h;
       MSSP.SSP1CON2 := MSSP.SSP1CON2 h;
       MSSP.SSP1STAT := MSSP.set_bit (MSSP.SSP1STAT h) 0;
       MSSP.PIR1 := MSSP.PIR1 h |};
  MSSP.on_unload := fun h => h;
  MSSP.tick := fun h => h
|}.

(** The bit positions of a layout are bit positions of a byte. *)
Definition layout_in_byte (L : MSSP.layout) : Prop :=
  0 <= MSSP.SEN L < 8 /\ 0 <= MSSP.RSEN L < 8 /\ 0 <= MSSP.PEN L < 8
  /\ 0 <= MSSP.RCEN L < 8 /\ 0 <= MSSP.ACKEN L < 8 /\ 0 <= MSSP.ACKDT L < 8
  /\ 0 <= MSSP.BF L < 8 /\ 0 <= MSSP.SSP1IF L < 8 /\ 0 <= MSSP.CKP L < 8.

(** The state [k] polls after [h]. *)
Definition polls (hw : MSSP.hardware) (k : nat) (h : MSSP.sfr) : MSSP.sfr :=
  Nat.iter k (MSSP.tick hw) h.

(** The registers with a received byte waiting in the buffer. *)
Definition byte_received (x : Z) : MSSP.sfr :=
  {| MSSP.SSP1BUF := x; MSSP.SSP1CON1 := 0x28; MSSP.SSP1CON2 := 0;
     MSSP.SSP1STAT := 1; MSSP.PIR1 := 0 |}.

(** ** Further vocabulary: the lossless bus *)

(** The register pointer of the simulated slave after [n] bytes. *)
Definition advance (n : nat) (p : Z) : Z := Nat.iter n (fun q => u8 (q + 1)) p.

(** The registers after the bytes [xs] were stored from pointer [p] on. *)
Fixpoint poke_all (d p : Z) (xs : list Z) (r : Z -> Z -> Z) : Z -> Z -> Z :=
  match xs with
  | [] => r
  | x :: xs' => poke_all d (u8 (p + 1)) xs' (poke d p x r)
  end.

(** The [n] registers from pointer [p] on. *)
Fixpoint peek_all (d p : Z) (n : nat) (r : Z -> Z -> Z) : list Z :=
  match n with
  | O => []
  | S n' => r d p :: peek_all d (u8 (p + 1)) n' r
  end.

(** ** The AD524X potentiometer driver

    [AD524X.c] keeps one global, [instructionByte], and talks to the chip
    through three functions of the register access layer that are called
    with a stored device address ([I2CDeviceSetDeviceAddress], and
    [I2CDeviceWriteByte] and [I2CDeviceWriteBytes] without a device
    argument). That variant of the layer is not part of the sources, so a
    call to it is recorded with its arguments and not interpreted. The
    constant [AD5241_DEVICE_ADDRESS] comes from the missing header and is a
    parameter. *)

Module AD524X.

Inductive api_call : Type :=
| SetDeviceAddress (deviceAddress : Z)
| WriteByte (address value : Z)
| WriteBytes (address length data : Z).

Record driver : Type := {
  instructionByte : Z;
  calls : list api_call
}.

(** A C global without initializer starts at zero. *)
Definition power_on : driver := {| instructionByte := 0; calls := [] |}.

(** [instructionByte = (unsigned char) f(instructionByte)]. *)
Definition assign (f : Z -> Z) (st : driver) : driver :=
  {| instructionByte := u8 (f (instructionByte st)); calls := calls st |}.

(** A call of the layer, its arguments read from the current state. *)
Definition call (c : Z -> api_call) (st : driver) : driver :=
  {| instructionByte := instructionByte st;
     calls := calls st ++ [c (instructionByte st)] |}.

Section Driver.
Variable AD5241_DEVICE_ADDRESS : Z.

Definition AD524XSetRDAC1Value (value : Z) (st : driver) : driver :=
  let st := assign (fun ib => Z.land ib 0x7F) st in
  let st := call (fun _ => SetDeviceAddress AD5241_DEVICE_ADDRESS) st in
  call (fun ib => WriteByte ib value) st.

Definition AD524XSetRDAC2Value (value : Z) (st : driver) : driver :=
  let st := assign (fun ib => Z.lor ib 0x80) st in
  let st := call (fun _ => SetDeviceAddress AD5241_DEVICE_ADDRESS) st in
  call (fun ib => WriteByte ib value) st.

Definition AD524XSetOutput1 (st : driver) : driver :=
  let st := assign (fun ib => Z.lor ib 0x10) st in
  let st := call (fun _ => SetDeviceAddress AD5241_DEVICE_ADDRESS) st in
  call (fun ib => WriteBytes ib 0 0x00) st.

Definition AD524XSetOutput2 (st : driver) : driver :=
  let st := assign (fun ib => Z.lor ib 0x08) st in
  let st := call (fun _ => SetDeviceAddress AD5241_DEVICE_ADDRESS) st in
  call (fun ib => WriteBytes ib 0 0x00) st.

Definition AD524XClearOutput1 (st : driver) : driver :=
  let st := assign (fun ib => Z.land ib 0xEF) st in
  let st := call (fun _ => SetDeviceAddress AD5241_DEVICE_ADDRESS) st in
  call (fun ib => WriteBytes ib 0 0x00) st.

Definition AD524XClearOutput2 (st : driver) : driver :=
  let st := assign (fun ib => Z.land ib 0xF7) st in
  let st := call (fun _ => SetDeviceAddress AD5241_DEVICE_ADDRESS) st in
  call (fun ib => WriteBytes ib 0 0x00) st.

Definition AD524XSetRDAC1Midscale (st : driver) : driver :=
  let st := assign (fun ib => Z.lor ib 0x40) st in
  let st := call (fun _ => SetDeviceAddress AD5241_DEVICE_ADDRESS) st in
  let st := call (fun ib => WriteBytes ib 0 0x00) st in
  assign (fun ib => Z.land ib 0xBF) st.

Definition AD524XSetRDAC2Midscale (st : driver) : driver :=
  let st := assign (fun ib => Z.lor ib 0xC0) st in
  let st := call (fun _ => SetDeviceAddress AD5241_DEVICE_ADDRESS) st in
  let st := call (fun ib => WriteBytes ib 0 0x00) st in
  assign (fun ib => Z.land ib 0xBF) st.

(** A request to the driver: one call of one of its eight functions. *)
Inductive request : Type :=
| SetRDAC1Value (value : Z)
| SetRDAC2Value (value : Z)
| SetOutput1
| SetOutput2
| ClearOutput1
| ClearOutput2
| SetRDAC1Midscale
| SetRDAC2Midscale.

Definition serve (r : request) : driver -> driver :=
  match r with
  | SetRDAC1Value v => AD524XSetRDAC1Value v
  | SetRDAC2Value v => AD524XSetRDAC2Value v
  | SetOutput1 => AD524XSetOutput1
  | SetOutput2 => AD524XSetOutput2
  | ClearOutput1 => AD524XClearOutput1
  | ClearOutput2 => AD524XClearOutput2
  | SetRDAC1Midscale => AD524XSetRDAC1Midscale
  | SetRDAC2Midscale => AD524XSetRDAC2Midscale
  end.

(** The requests of a program, served in order. *)
Definition serve_all (rs : list request) (st : driver) : driver :=
  fold_left (fun st' r => serve r st') rs st.

End Driver.

(** The instruction byte a write call carries (its first argument). *)
Definition sent_instruction (c : api_call) : option Z :=
  match c with
  | SetDeviceAddress _ => None
  | WriteByte a _ => Some a
  | WriteBytes a _ _ => Some a
  end.

Definition is_midscale (r : request) : bool :=
  match r with
  | SetRDAC1Midscale | SetRDAC2Midscale => true
  | _ => false
  end.

(** The write call a request ends in, for the instruction byte [ib]. *)
Definition write_call (r : request) (ib : Z) : api_call :=
  match r with
  | SetRDAC1Value v | SetRDAC2Value v => WriteByte ib v
  | _ => WriteBytes ib 0 0x00
  end.

(** The output flags and the RDAC selection as the requests leave them. *)
Definition output1_after (flag : bool) (r : request) : bool :=
  match r with
  | SetOutput1 => true
  | ClearOutput1 => false
  | _ => flag
  end.

Definition output2_after (flag : bool) (r : request) : bool :=
  match r with
  | SetOutput2 => true
  | ClearOutput2 => false
  | _ => flag
  end.

Definition rdac2_after (selected : bool) (r : request) : bool :=
  match r with
  | SetRDAC1Value _ => false
  | SetRDAC2Value _ | SetRDAC2Midscale => true
  | _ => selected
  end.

End AD524X.
(** * Properties *)

(** ** Integer facts *)

Lemma u8_small (x : Z) : 0 <= x < 256 -> u8 x = x.
Proof. intros Hx. unfold u8. now apply Z.mod_small. Qed.

Lemma u8_range (x : Z) : 0 <= u8 x < 256.
Proof. unfold u8. apply Z.mod_pos_bound. lia. Qed.

Lemma u8_land (x : Z) : u8 x = Z.land x 255.
Proof. unfold u8. symmetry. exact (Z.land_ones x 8 ltac:(lia)). Qed.

Lemma u8_land_FE (x : Z) : u8 (Z.land x 0xFE) = Z.land x 0xFE.
Proof. rewrite u8_land, <- Z.land_assoc. reflexivity. Qed.

Lemma u8_succ_nat (i : nat) : (i < 255)%nat -> u8 (Z.of_nat i + 1) = Z.of_nat (S i).
Proof. intros Hi. rewrite u8_small by lia. lia. Qed.

(** ** The monad on a state that answers *)

Lemma bind_Done {B A C : Type} (m : prog B A) (k : A -> prog B C) s a s' :
  m s = Done (a, s') -> bind m k s = k a s'.
Proof. intros Hm. unfold bind. now rewrite Hm. Qed.

Lemma lift_Done {B A : Type} (a : A) (s : B) : lift (Done a) s = Done (a, s).
Proof. reflexivity. Qed.

(** ** Byte transactions on the recording bus *)

(** Equalities between recorder states that differ in how a count is written. *)
Ltac same_recorder :=
  rewrite ?take_0, ?drop_0; cbn [app Nat.add];
  repeat first [reflexivity | lia | progress f_equal].

Lemma after_after m ops1 w1 r1 ops2 w2 r2 :
  after (after m ops1 w1 r1) ops2 w2 r2
  = after m (ops1 ++ ops2) (w1 + w2) (r1 + r2).
Proof.
  unfold after; simpl. f_equal; [now rewrite app_assoc | lia | lia].
Qed.

Lemma after_nil m : after m [] 0 0 = m.
Proof.
  destruct m; unfold after; simpl. f_equal; [apply app_nil_r | lia | lia].
Qed.

Lemma emit_after e m : emit e m = Done (tt, after m [e] 0 0).
Proof. unfold emit, after. do 3 f_equal; lia. Qed.

Lemma rec_write_after x m :
  rec_write x m = Done (status_of m (writes m),
                        after m [Write x (status_of m (writes m))] 1 0).
Proof. unfold rec_write, after. do 3 f_equal; lia. Qed.

Lemma rec_read_after m :
  rec_read m = Done (byte_of m (reads m),
                     after m [Read (byte_of m (reads m))] 0 1).
Proof. unfold rec_read, after. do 3 f_equal; lia. Qed.

Lemma WriteBytes_loop_recorded (n : nat) :
  forall (i fuel : nat) (data : list Z) (m : recorder),
    (i + n <= 255)%nat -> (i + n <= length data)%nat -> (n < fuel)%nat ->
    WriteBytes_loop fuel (Z.of_nat i) (Z.of_nat (i + n)) data m
    = Done (tt, after m (write_ops (status_of m) (writes m)
                                   (take n (drop i data))) n 0).
Proof.
  induction n as [|n IH]; intros i fuel data m Hi Hd Hf;
    (destruct fuel as [|fuel]; [lia|]); cbn [WriteBytes_loop].
  - rewrite Nat.add_0_r, Z.ltb_irrefl. cbn. now rewrite after_nil.
  - assert (Hlt : (Z.of_nat i <? Z.of_nat (i + S n)) = true) by (apply Z.ltb_lt; lia).
    rewrite Hlt.
    destruct (lookup_lt_is_Some_2 data i ltac:(lia)) as [x Hx].
    assert (Hload : load data (Z.of_nat i) = Done x).
    { unfold load. assert (H0 : (0 <=? Z.of_nat i) = true) by (apply Z.leb_le; lia). rewrite H0.
      now rewrite Nat2Z.id, Hx. }
    rewrite Hload. 
    rewrite (bind_Done _ _ m x m) by reflexivity.
    rewrite (bind_Done _ _ _ _ _ (rec_write_after x m)).
    rewrite u8_succ_nat by lia.
    replace (i + S n)%nat with (S i + n)%nat by lia.
    rewrite IH by lia.
    rewrite after_after. rewrite (drop_S _ _ _ Hx). cbn [take write_ops app].
    cbn [after writes status_of].
    same_recorder.
Qed.

Lemma ReadBytes_loop_recorded (n : nat) :
  forall (i fuel : nat) (data : list Z) (m : recorder),
    (i + n <= 255)%nat -> (i + n <= length data)%nat -> (n < fuel)%nat ->
    ReadBytes_loop fuel (Z.of_nat i) (Z.of_nat (i + n)) data m
    = Done (take i data ++ map (byte_of m) (seq (reads m) n)
                        ++ drop (i + n) data,
            after m (read_ops (map (byte_of m) (seq (reads m) n))) 0 n).
Proof.
  induction n as [|n IH]; intros i fuel data m Hi Hd Hf;
    (destruct fuel as [|fuel]; [lia|]); cbn [ReadBytes_loop].
  - rewrite Nat.add_0_r, Z.ltb_irrefl. cbn [seq map read_ops app].
    now rewrite take_drop, after_nil.
  - assert (Hlt : (Z.of_nat i <? Z.of_nat (i + S n)) = true)
      by (apply Z.ltb_lt; lia).
    rewrite Hlt.
    rewrite (bind_Done _ _ _ _ _ (rec_read_after m)).
    set (x := byte_of m (reads m)).
    assert (Hstore : store data (Z.of_nat i) x
                     = Done (<[i := x]> data)).
    { unfold store.
      assert (H0 : (0 <=? Z.of_nat i) = true) by (apply Z.leb_le; lia).
      assert (H1 : (Z.of_nat i <? Z.of_nat (length data)) = true)
        by (apply Z.ltb_lt; lia).
      now rewrite H0, H1, Nat2Z.id. }
    rewrite Hstore, (bind_Done _ _ _ _ _ (lift_Done _ _)).
    assert (Hdata : forall bs,
      take (S i) (<[i := x]> data) ++ bs ++ drop (S i + n) (<[i := x]> data)
      = take i data ++ (x :: bs) ++ drop (i + S n) data).
    { intros bs.
      rewrite (take_S_r _ _ x) by (apply list_lookup_insert_eq; lia).
      rewrite take_insert_ge by lia.
      rewrite drop_insert_lt by lia.
      rewrite <- app_assoc. cbn [app].
      now replace (S i + n)%nat with (i + S n)%nat by lia. }
    rewrite u8_succ_nat by lia.
    replace (i + S n)%nat with (S i + n)%nat by lia.
    destruct n as [|n].
    + assert (Hlast : (Z.of_nat i =? Z.of_nat (S i + 0) - 1) = true)
        by (apply Z.eqb_eq; lia).
      rewrite Hlast.
      rewrite (bind_Done _ _ _ _ _ (emit_after NotAck _)).
      rewrite IH by (rewrite ?length_insert; lia). rewrite !after_after, Hdata.
      cbn [after reads byte_of seq map read_ops app].
      replace (S i + 0)%nat with (i + 1)%nat by lia. reflexivity.
    + assert (Hnot : (Z.of_nat i =? Z.of_nat (S i + S n) - 1) = false)
        by (apply Z.eqb_neq; lia).
      rewrite Hnot.
      rewrite (bind_Done _ _ _ _ _ (emit_after Ack _)).
      rewrite IH by (rewrite ?length_insert; lia). rewrite !after_after, Hdata.
      cbn [after reads byte_of].
      replace (reads m + (1 + 0))%nat with (S (reads m)) by lia.
      replace (S i + S n)%nat with (i + S (S n))%nat by lia.
      reflexivity.
Qed.

(** The bus operations of one [I2CDeviceWriteBytes], whatever the statuses. *)
Lemma WriteBytes_recorded (fuel : nat) (dev reg : Z) (n : nat)
    (data : list Z) (m : recorder) :
  (n <= 255)%nat -> (n <= length data)%nat -> (n < fuel)%nat ->
  I2CDeviceWriteBytes fuel dev reg (Z.of_nat n) data m
  = Done (tt, after m (Start :: write_ops (status_of m) (writes m)
                                 (Z.land dev 0xFE :: reg :: take n data)
                             ++ [Stop]) (2 + n) 0).
Proof.
  intros Hn Hd Hf. unfold I2CDeviceWriteBytes.
  cbn [I2CStart I2CStop I2CWrite recorder_bus].
  rewrite (bind_Done _ _ _ _ _ (emit_after Start _)).
  rewrite (bind_Done _ _ _ _ _ (rec_write_after _ _)).
  rewrite (bind_Done _ _ _ _ _ (rec_write_after _ _)).
  rewrite (bind_Done _ _ _ _ _ (WriteBytes_loop_recorded n 0 fuel data _ Hn Hd Hf)).
  rewrite emit_after, !after_after, u8_land_FE.
  cbn [after writes status_of write_ops].
  same_recorder.
Qed.

(** The bus operations of one [I2CDeviceReadBytes], whatever the statuses. *)
Lemma ReadBytes_recorded (fuel : nat) (dev reg : Z) (n : nat)
    (data : list Z) (m : recorder) :
  (n <= 255)%nat -> (n <= length data)%nat -> (n < fuel)%nat ->
  let st := status_of m in
  let w := writes m in
  let bytes := map (byte_of m) (seq (reads m) n) in
  I2CDeviceReadBytes fuel dev reg (Z.of_nat n) data m
  = Done (bytes ++ drop n data,
          after m ([Start; Write (Z.land dev 0xFE) (st w);
                    Write reg (st (S w)); Restart;
                    Write (u8 (Z.lor dev 0x01)) (st (S (S w)))]
                   ++ read_ops bytes ++ [Stop]) 3 n).
Proof.
  intros Hn Hd Hf st w bytes. unfold I2CDeviceReadBytes.
  cbn [I2CStart I2CRestart I2CStop I2CWrite recorder_bus].
  rewrite (bind_Done _ _ _ _ _ (emit_after Start _)).
  rewrite (bind_Done _ _ _ _ _ (rec_write_after _ _)).
  rewrite (bind_Done _ _ _ _ _ (rec_write_after _ _)).
  rewrite (bind_Done _ _ _ _ _ (emit_after Restart _)).
  rewrite (bind_Done _ _ _ _ _ (rec_write_after _ _)).
  rewrite (bind_Done _ _ _ _ _ (ReadBytes_loop_recorded n 0 fuel data _ Hn Hd Hf)).
  rewrite (bind_Done _ _ _ _ _ (emit_after Stop _)).
  unfold ret. rewrite !after_after, u8_land_FE.
  cbn [after writes reads status_of byte_of take app].
  subst st w bytes. same_recorder.
Qed.

(** ** Shape of the recorded operations *)

Lemma write_ops_acknowledged (st : nat -> Z) (xs : list Z) :
  (forall k, st k = 0) ->
  forall k, write_ops st k xs = map (fun x => Write x 0) xs.
Proof.
  intros Hst. induction xs as [|x xs IH]; intros k; cbn [write_ops map].
  - reflexivity.
  - now rewrite Hst, IH.
Qed.

Lemma write_ops_no_Stop (st : nat -> Z) (xs : list Z) :
  forall k, Stop ∉ write_ops st k xs.
Proof.
  induction xs as [|x xs IH]; intros k; cbn [write_ops].
  - apply not_elem_of_nil.
  - rewrite not_elem_of_cons. split; [discriminate | apply IH].
Qed.

Lemma read_ops_no_Stop (xs : list Z) : Stop ∉ read_ops xs.
Proof.
  induction xs as [|x [|y xs] IH]; cbn [read_ops] in *.
  - apply not_elem_of_nil.
  - rewrite !not_elem_of_cons. repeat split; try discriminate.
    apply not_elem_of_nil.
  - rewrite !not_elem_of_cons. repeat split; try discriminate. exact IH.
Qed.

Lemma read_ops_snoc (front : list Z) (z : Z) :
  read_ops (front ++ [z])
  = flat_map (fun x => [Read x; Ack]) front ++ [Read z; NotAck].
Proof.
  induction front as [|x front IH]; [reflexivity|].
  cbn [app flat_map]. rewrite <- IH.
  destruct front; reflexivity.
Qed.

Lemma read_ops_acknowledges (front : list Z) (z : Z) :
  filter (fun e => is_acknowledge e = true) (read_ops (front ++ [z]))
  = replicate (length front) Ack ++ [NotAck].
Proof.
  rewrite read_ops_snoc.
  induction front as [|x front IH]; [reflexivity|].
  cbn [flat_map length replicate app]. rewrite <- IH. reflexivity.
Qed.

Lemma scripted_bytes_snoc (f : nat -> Z) (r n : nat) :
  map f (seq r (S n)) = map f (seq r n) ++ [f (r + n)%nat].
Proof. now rewrite seq_S, map_app. Qed.

(** ** Claims about the byte transactions *)

(** C5. When every byte write is acknowledged, [I2CDeviceWriteBytes] puts
    exactly these operations on the bus: Start; a write of the device
    address with the direction bit cleared; a write of the register address;
    the [len] bytes [data[0] .. data[len-1]] in order; Stop. For the
    potentiometer scenario (address byte 0xB0, register 0x00, value 0x10)
    the trace is Start, Write(0xB0), Write(0x00), Write(0x10), Stop, each
    write acknowledged. *)
Theorem WriteBytes_trace_acknowledged :
  forall (fuel : nat) (m : recorder),
    (forall k, status_of m k = 0) ->
    (forall (dev reg len : Z) (data : list Z),
        0 <= len <= 255 -> len <= Z.of_nat (length data) ->
        (Z.to_nat len < fuel)%nat ->
        exists m',
          I2CDeviceWriteBytes fuel dev reg len data m = Done (tt, m')
          /\ log m' = log m
                      ++ [Start; Write (Z.land dev 0xFE) 0; Write reg 0]
                      ++ map (fun x => Write x 0) (take (Z.to_nat len) data)
                      ++ [Stop])
    /\ ((1 < fuel)%nat ->
        exists m',
          I2CDeviceWriteByte fuel 0xB0 0x00 0x10 m = Done (tt, m')
          /\ log m' = log m ++ [Start; Write 0xB0 0; Write 0x00 0;
                                Write 0x10 0; Stop]).
Proof.
  intros fuel m Hack. split.
  - intros dev reg len data Hlen Hdata Hfuel.
    eexists. split.
    + rewrite <- (Z2Nat.id len) at 1 by lia.
      apply WriteBytes_recorded; lia.
    + cbn [after log write_ops]. rewrite !Hack.
      now rewrite (write_ops_acknowledged _ _ Hack).
  - intros Hfuel. eexists. split.
    + unfold I2CDeviceWriteByte.
      apply (WriteBytes_recorded fuel 0xB0 0 1 [0x10] m); cbn [length]; lia.
    + cbn [after log write_ops take]. now rewrite !Hack.
Qed.

Lemma WriteBytes_trace_acknowledged_witness :
  exists m',
    I2CDeviceWriteByte 2 0xB0 0x00 0x10 (fresh (fun _ => 0) (fun _ => 0))
    = Done (tt, m')
    /\ log m' = [] ++ [Start; Write 0xB0 0; Write 0x00 0; Write 0x10 0; Stop].
Proof.
  apply (WriteBytes_trace_acknowledged 2 (fresh (fun _ => 0) (fun _ => 0))).
  - reflexivity.
  - lia.
Defined.

(** C4. For every [len >= 1], [I2CDeviceReadBytes] puts exactly these
    operations on the bus: Start; a write of the device address with the
    direction bit cleared; a write of the register address; Restart (no
    Stop comes before it); a write of the device address with the direction
    bit set; [len] reads, each followed by Ack except the last, which is
    followed by NotAck; Stop. The byte of read [i] is stored into [data[i]];
    the rest of the buffer is unchanged. *)
Theorem ReadBytes_trace :
  forall (fuel : nat) (dev reg len : Z) (data : list Z) (m : recorder),
    1 <= len <= 255 -> len <= Z.of_nat (length data) ->
    (Z.to_nat len < fuel)%nat ->
    let st := status_of m in
    let w := writes m in
    let bytes := map (byte_of m) (seq (reads m) (Z.to_nat len)) in
    exists (m' : recorder) (front : list Z) (z : Z),
      I2CDeviceReadBytes fuel dev reg len data m
      = Done (bytes ++ drop (Z.to_nat len) data, m')
      /\ bytes = front ++ [z]
      /\ log m' = log m
                  ++ [Start; Write (Z.land dev 0xFE) (st w);
                      Write reg (st (S w)); Restart;
                      Write (u8 (Z.lor dev 0x01)) (st (S (S w)))]
                  ++ flat_map (fun x => [Read x; Ack]) front
                  ++ [Read z; NotAck; Stop]
      /\ filter (fun e => is_acknowledge e = true) (read_ops bytes)
         = replicate (Z.to_nat len - 1) Ack ++ [NotAck]
      /\ Z.testbit (u8 (Z.lor dev 0x01)) 0 = true
      /\ Z.testbit (Z.land dev 0xFE) 0 = false.
Proof.
  intros fuel dev reg len data m Hlen Hdata Hfuel st w bytes.
  destruct (Z.to_nat len) as [|n] eqn:En; [lia|].
  exists (after m ([Start; Write (Z.land dev 0xFE) (st w);
                    Write reg (st (S w)); Restart;
                    Write (u8 (Z.lor dev 0x01)) (st (S (S w)))]
                   ++ read_ops bytes ++ [Stop]) 3 (S n)),
         (map (byte_of m) (seq (reads m) n)),
         (byte_of m (reads m + n)%nat).
  assert (Hb : bytes = map (byte_of m) (seq (reads m) n)
                       ++ [byte_of m (reads m + n)%nat])
    by apply scripted_bytes_snoc.
  split; [|split; [exact Hb|split; [|split; [|split]]]].
  - rewrite <- (Z2Nat.id len), En by lia.
    apply ReadBytes_recorded; lia.
  - cbn [after log]. rewrite Hb, read_ops_snoc, <- !app_assoc. reflexivity.
  - rewrite Hb, read_ops_acknowledges, length_map, length_seq.
    now replace (S n - 1)%nat with n by lia.
  - rewrite u8_land, Z.land_spec, Z.lor_spec. cbn.
    now rewrite andb_true_r, orb_true_r.
  - rewrite Z.land_spec. cbn. apply andb_false_r.
Qed.

Lemma ReadBytes_trace_witness :
  exists (m' : recorder) (front : list Z) (z : Z),
    I2CDeviceReadBytes 3 0xB0 0x00 2 [0; 0]
                       (fresh (fun _ => 0) (fun k => Z.of_nat (40 + k)))
    = Done ([40; 41] ++ [], m')
    /\ [40; 41] = front ++ [z]
    /\ log m' = [] ++ [Start; Write 0xB0 0; Write 0x00 0; Restart;
                       Write (u8 0xB1) 0]
                   ++ flat_map (fun x => [Read x; Ack]) front
                   ++ [Read z; NotAck; Stop]
    /\ filter (fun e => is_acknowledge e = true) (read_ops [40; 41])
       = replicate 1 Ack ++ [NotAck]
    /\ Z.testbit (u8 0xB1) 0 = true
    /\ Z.testbit 0xB0 0 = false.
Proof.
  apply (ReadBytes_trace 3 0xB0 0x00 2 [0; 0]
           (fresh (fun _ => 0) (fun k => Z.of_nat (40 + k)))).
  - lia.
  - cbn [length]. lia.
  - cbn. lia.
Defined.

(** C6. Whatever statuses the byte writes report (NACK or collision, in any
    position, the device-address phase included), [I2CDeviceWriteBytes] and
    [I2CDeviceReadBytes] issue Stop exactly once, as their last operation;
    and what they hand back to the caller (nothing for a write, the buffer
    for a read) is the same whatever the statuses were. *)
Theorem Stop_once_and_statuses_dropped :
  forall (fuel : nat) (dev reg len : Z) (data : list Z) (m : recorder),
    0 <= len <= 255 -> len <= Z.of_nat (length data) ->
    (Z.to_nat len < fuel)%nat ->
    (exists ops m',
        I2CDeviceWriteBytes fuel dev reg len data m = Done (tt, m')
        /\ log m' = log m ++ ops ++ [Stop] /\ Stop ∉ ops)
    /\ (exists ops data' m',
        I2CDeviceReadBytes fuel dev reg len data m = Done (data', m')
        /\ log m' = log m ++ ops ++ [Stop] /\ Stop ∉ ops)
    /\ (forall st,
        returned (I2CDeviceWriteBytes fuel dev reg len data (with_statuses st m))
        = Done tt)
    /\ (forall st,
        returned (I2CDeviceReadBytes fuel dev reg len data (with_statuses st m))
        = returned (I2CDeviceReadBytes fuel dev reg len data m)).
Proof.
  intros fuel dev reg len data m Hlen Hdata Hfuel.
  assert (HW : forall m0,
    I2CDeviceWriteBytes fuel dev reg len data m0
    = Done (tt, after m0 (Start :: write_ops (status_of m0) (writes m0)
                   (Z.land dev 0xFE :: reg :: take (Z.to_nat len) data)
                 ++ [Stop]) (2 + Z.to_nat len) 0)).
  { intros m0. rewrite <- (Z2Nat.id len) at 1 by lia.
    apply WriteBytes_recorded; lia. }
  assert (HR : forall m0,
    I2CDeviceReadBytes fuel dev reg len data m0
    = Done (map (byte_of m0) (seq (reads m0) (Z.to_nat len))
              ++ drop (Z.to_nat len) data,
            after m0 ([Start; Write (Z.land dev 0xFE) (status_of m0 (writes m0));
                       Write reg (status_of m0 (S (writes m0))); Restart;
                       Write (u8 (Z.lor dev 0x01))
                             (status_of m0 (S (S (writes m0))))]
                      ++ read_ops (map (byte_of m0)
                                       (seq (reads m0) (Z.to_nat len)))
                      ++ [Stop]) 3 (Z.to_nat len))).
  { intros m0. rewrite <- (Z2Nat.id len) at 1 by lia.
    apply ReadBytes_recorded; lia. }
  split; [|split; [|split]].
  - eexists (Start :: write_ops _ _ _), _. split; [apply HW|]. split.
    + reflexivity.
    + rewrite not_elem_of_cons. split; [discriminate|].
      apply write_ops_no_Stop.
  - eexists ([_; _; _; _; _] ++ read_ops _), _, _. split; [apply HR|]. split.
    + cbn [after log]. now rewrite <- !app_assoc.
    + rewrite not_elem_of_app, !not_elem_of_cons.
      repeat split; try discriminate; [apply not_elem_of_nil|].
      apply read_ops_no_Stop.
  - intros st. now rewrite HW.
  - intros st. now rewrite !HR.
Qed.

Lemma Stop_once_and_statuses_dropped_witness :
  (exists ops m',
      I2CDeviceWriteBytes 2 0xB0 0x00 1 [0x10] (fresh (nack_at 0) (fun _ => 0))
      = Done (tt, m')
      /\ log m' = [] ++ ops ++ [Stop] /\ Stop ∉ ops)
  /\ (exists ops data' m',
      I2CDeviceReadBytes 2 0xB0 0x00 1 [0x10] (fresh (nack_at 0) (fun _ => 0))
      = Done (data', m')
      /\ log m' = [] ++ ops ++ [Stop] /\ Stop ∉ ops)
  /\ (forall st,
      returned (I2CDeviceWriteBytes 2 0xB0 0x00 1 [0x10]
                  (with_statuses st (fresh (nack_at 0) (fun _ => 0))))
      = Done tt)
  /\ (forall st,
      returned (I2CDeviceReadBytes 2 0xB0 0x00 1 [0x10]
                  (with_statuses st (fresh (nack_at 0) (fun _ => 0))))
      = returned (I2CDeviceReadBytes 2 0xB0 0x00 1 [0x10]
                    (fresh (nack_at 0) (fun _ => 0)))).
Proof.
  apply (Stop_once_and_statuses_dropped 2 0xB0 0x00 1 [0x10]
           (fresh (nack_at 0) (fun _ => 0))).
  - lia.
  - cbn [length]. lia.
  - cbn. lia.
Defined.

(** C3, as amended. When some byte write of [I2CDeviceWriteBytes] returns
    the NACK status, the transaction is not cut short: the statuses are
    ignored, so the device address, the register address and all [len]
    data bytes are still handed to the byte-write primitive in order, and
    Stop is issued once, at the end. *)
Theorem WriteBytes_carries_on_after_nack :
  forall (fuel : nat) (dev reg len : Z) (data : list Z) (m : recorder) (k : nat),
    0 <= len <= 255 -> len <= Z.of_nat (length data) ->
    (Z.to_nat len < fuel)%nat ->
    (k < 2 + Z.to_nat len)%nat ->
    status_of m (writes m + k)%nat = MSSP.STATUS_NACK ->
    exists m',
      I2CDeviceWriteBytes fuel dev reg len data m = Done (tt, m')
      /\ log m' = log m
                  ++ [Start]
                  ++ write_ops (status_of m) (writes m)
                       (Z.land dev 0xFE :: reg :: take (Z.to_nat len) data)
                  ++ [Stop]
      /\ length (write_ops (status_of m) (writes m)
                   (Z.land dev 0xFE :: reg :: take (Z.to_nat len) data))
         = (2 + Z.to_nat len)%nat
      /\ Stop ∉ write_ops (status_of m) (writes m)
                  (Z.land dev 0xFE :: reg :: take (Z.to_nat len) data).
Proof.
  intros fuel dev reg len data m k Hlen Hdata Hfuel _ _.
  eexists. split; [|split; [|split]].
  - rewrite <- (Z2Nat.id len) at 1 by lia.
    apply WriteBytes_recorded; lia.
  - reflexivity.
  - assert (Hops : forall st xs j, length (write_ops st j xs) = length xs).
    { intros st xs. induction xs as [|x xs IH]; intros j; cbn [write_ops length];
        [reflexivity | now rewrite IH]. }
    rewrite Hops. cbn [length]. rewrite length_take. lia.
  - apply write_ops_no_Stop.
Qed.

Lemma WriteBytes_carries_on_after_nack_witness :
  exists m',
    I2CDeviceWriteBytes 2 0xB0 0x00 1 [0x10] (fresh (nack_at 0) (fun _ => 0))
    = Done (tt, m')
    /\ log m' = []
                ++ [Start]
                ++ write_ops (nack_at 0) 0 (Z.land 0xB0 0xFE :: 0x00 :: [0x10])
                ++ [Stop]
    /\ length (write_ops (nack_at 0) 0 (Z.land 0xB0 0xFE :: 0x00 :: [0x10]))
       = 3%nat
    /\ Stop ∉ write_ops (nack_at 0) 0 (Z.land 0xB0 0xFE :: 0x00 :: [0x10]).
Proof.
  apply (WriteBytes_carries_on_after_nack 2 0xB0 0x00 1 [0x10]
           (fresh (nack_at 0) (fun _ => 0)) 0).
  - lia.
  - cbn [length]. lia.
  - cbn. lia.
  - cbn. lia.
  - reflexivity.
Defined.

(** C3 as stated fails: the slave does not acknowledge the device address,
    and the register address and the data byte are written all the same. *)
Lemma WriteBytes_not_abandoned_on_nack :
  trace (I2CDeviceWriteBytes 2 0xB0 0x00 1 [0x10]
           (fresh (nack_at 0) (fun _ => 0)))
  = [Start; Write 0xB0 MSSP.STATUS_NACK; Write 0x00 0; Write 0x10 0; Stop]
  /\ ~ abandoned_on_nack
       (trace (I2CDeviceWriteBytes 2 0xB0 0x00 1 [0x10]
                 (fresh (nack_at 0) (fun _ => 0)))).
Proof.
  split; [reflexivity|].
  intros Habandoned.
  apply (Habandoned [Start] 0xB0 [Write 0x00 0; Write 0x10 0; Stop] eq_refl
                    0x00 0).
  apply elem_of_cons. now left.
Qed.

(** C10. With [len = 0] both transactions still address the device and
    stop: [I2CDeviceReadBytes] issues Start, address write, register write,
    Restart, read-mode address write, Stop; [I2CDeviceWriteBytes] issues
    Start, address write, register write, Stop. No byte is read, no Ack or
    NotAck is sent, and the buffer is neither read nor written: the call is
    defined for every buffer, the empty one included, and returns it as it
    was. *)
Theorem zero_length_transactions :
  forall (fuel : nat) (dev reg : Z) (data : list Z) (m : recorder),
    let st := status_of m in
    let w := writes m in
    I2CDeviceReadBytes (S fuel) dev reg 0 data m
    = Done (data, after m [Start; Write (Z.land dev 0xFE) (st w);
                           Write reg (st (S w)); Restart;
                           Write (u8 (Z.lor dev 0x01)) (st (S (S w))); Stop]
                        3 0)
    /\ I2CDeviceWriteBytes (S fuel) dev reg 0 data m
       = Done (tt, after m [Start; Write (Z.land dev 0xFE) (st w);
                            Write reg (st (S w)); Stop] 2 0)
    /\ I2CDeviceReadBytes (S fuel) dev reg 0 [] m
       = Done ([], after m [Start; Write (Z.land dev 0xFE) (st w);
                            Write reg (st (S w)); Restart;
                            Write (u8 (Z.lor dev 0x01)) (st (S (S w))); Stop]
                         3 0)
    /\ I2CDeviceWriteBytes (S fuel) dev reg 0 [] m
       = Done (tt, after m [Start; Write (Z.land dev 0xFE) (st w);
                            Write reg (st (S w)); Stop] 2 0).
Proof.
  intros fuel dev reg data m st w.
  assert (HR : forall d, I2CDeviceReadBytes (S fuel) dev reg 0 d m
    = Done (d, after m [Start; Write (Z.land dev 0xFE) (st w);
                        Write reg (st (S w)); Restart;
                        Write (u8 (Z.lor dev 0x01)) (st (S (S w))); Stop]
                     3 0)).
  { intros d.
    exact (ReadBytes_recorded (S fuel) dev reg 0 d m
             ltac:(lia) ltac:(lia) ltac:(lia)). }
  assert (HW : forall d, I2CDeviceWriteBytes (S fuel) dev reg 0 d m
    = Done (tt, after m [Start; Write (Z.land dev 0xFE) (st w);
                         Write reg (st (S w)); Stop] 2 0)).
  { intros d.
    exact (WriteBytes_recorded (S fuel) dev reg 0 d m
             ltac:(lia) ltac:(lia) ltac:(lia)). }
  repeat split; [apply HR | apply HW | apply HR | apply HW].
Qed.

(** ** Byte transactions on the lossless bus *)

Lemma read_address_bit (dev : Z) : Z.testbit (u8 (Z.lor dev 0x01)) 0 = true.
Proof.
  rewrite u8_land, Z.land_spec, Z.lor_spec. cbn.
  now rewrite andb_true_r, orb_true_r.
Qed.

Lemma read_address_device (dev : Z) :
  Z.land (u8 (Z.lor dev 0x01)) 0xFE = Z.land dev 0xFE.
Proof.
  rewrite u8_land, <- Z.land_assoc. change (Z.land 255 254) with 254.
  rewrite Z.land_lor_distr_l. change (Z.land 1 254) with 0.
  apply Z.lor_0_r.
Qed.

Lemma write_address_bit (dev : Z) : Z.testbit (Z.land dev 0xFE) 0 = false.
Proof. rewrite Z.land_spec. cbn. apply andb_false_r. Qed.

Lemma write_address_device (dev : Z) :
  Z.land (Z.land dev 0xFE) 0xFE = Z.land dev 0xFE.
Proof. now rewrite <- Z.land_assoc. Qed.

(** Run the simulated slave as far as the symbolic address bytes allow. *)
Ltac sim_steps := cbv - [Z.testbit Z.land Z.lor Z.add u8 poke].

(** A register read returns the register and leaves the register file as
    it was. *)
Lemma ReadByte_lossless (fuel : nat) (dev reg : Z) (s : sim) :
  I2CDeviceReadByte (S (S fuel)) dev reg s
  = Done (regs s (Z.land dev 0xFE) reg,
          {| regs := regs s; ph := Idle; ptr := u8 (reg + 1) |}).
Proof.
  unfold I2CDeviceReadByte, I2CDeviceReadBytes.
  cbn [ReadBytes_loop]. change (u8 (0 + 1)) with 1. rewrite u8_land_FE.
  sim_steps. rewrite write_address_bit.
  sim_steps. rewrite read_address_bit, read_address_device.
  sim_steps. reflexivity.
Qed.

(** A register write stores the byte and touches no other register. *)
Lemma WriteByte_lossless (fuel : nat) (dev reg v : Z) (s : sim) :
  I2CDeviceWriteByte (S (S fuel)) dev reg v s
  = Done (tt, {| regs := poke (Z.land dev 0xFE) reg v (regs s);
                 ph := Idle; ptr := u8 (reg + 1) |}).
Proof.
  unfold I2CDeviceWriteByte, I2CDeviceWriteBytes.
  cbn [WriteBytes_loop]. change (u8 (0 + 1)) with 1. rewrite u8_land_FE.
  sim_steps. rewrite write_address_bit.
  sim_steps. rewrite write_address_device.
  sim_steps. reflexivity.
Qed.

Lemma poke_same (d a x : Z) (r : Z -> Z -> Z) : poke d a x r d a = x.
Proof. unfold poke. now rewrite !Z.eqb_refl. Qed.

(** ** Bits of a byte *)

Lemma testbit_u8 (x k : Z) : Z.testbit (u8 x) k = (k <? 8) && Z.testbit x k.
Proof. exact (Z.testbit_mod_pow2 x 8 k ltac:(lia)). Qed.

Lemma testbit_byte_high (b k : Z) :
  0 <= b < 256 -> 8 <= k -> Z.testbit b k = false.
Proof.
  intros Hb Hk. rewrite <- (u8_small b Hb), testbit_u8.
  now rewrite (proj2 (Z.ltb_ge k 8) Hk).
Qed.

Lemma testbit_one_shifted (p k : Z) :
  0 <= p -> Z.testbit (Z.shiftl 1 p) k = (p =? k).
Proof. intros Hp. rewrite Z.shiftl_1_l. now apply Z.pow2_bits_eqb. Qed.

Lemma shl_int_one (p : Z) : 0 <= p <= 7 -> shl_int 1 p = Some (Z.shiftl 1 p).
Proof.
  intros Hp.
  assert (Hcases : p = 0 \/ p = 1 \/ p = 2 \/ p = 3 \/ p = 4 \/ p = 5
                   \/ p = 6 \/ p = 7) by lia.
  repeat (destruct Hcases as [-> | Hcases]; [reflexivity|]).
  now subst.
Qed.

(** The mask of one bit selects that bit and nothing else. *)
Lemma land_one_shifted (b p : Z) :
  0 <= p ->
  Z.land b (Z.shiftl 1 p) = if Z.testbit b p then 2 ^ p else 0.
Proof.
  intros Hp. apply Z.bits_inj'. intros k Hk.
  rewrite Z.land_spec, testbit_one_shifted by lia.
  destruct (Z.eqb_spec p k) as [-> | Hne].
  - rewrite andb_true_r. destruct (Z.testbit b k) eqn:Eb.
    + now rewrite Z.pow2_bits_true.
    + now rewrite Z.bits_0.
  - rewrite andb_false_r. destruct (Z.testbit b p).
    + now rewrite Z.pow2_bits_false.
    + now rewrite Z.bits_0.
Qed.

Lemma u8_land_one_shifted (b p : Z) :
  0 <= p <= 7 -> u8 (Z.land b (Z.shiftl 1 p)) = Z.land b (Z.shiftl 1 p).
Proof.
  intros Hp. apply u8_small. rewrite land_one_shifted by lia.
  assert (0 < 2 ^ p <= 2 ^ 7)
    by (split; [apply Z.pow_pos_nonneg | apply Z.pow_le_mono_r]; lia).
  destruct (Z.testbit b p); lia.
Qed.

Lemma set_bit_of_byte (b p : Z) :
  0 <= b < 256 -> 0 <= p <= 7 ->
  Z.testbit (u8 (Z.lor b (Z.shiftl 1 p))) p = true
  /\ forall k, k <> p ->
       Z.testbit (u8 (Z.lor b (Z.shiftl 1 p))) k = Z.testbit b k.
Proof.
  intros Hb Hp. split.
  - rewrite testbit_u8, Z.lor_spec, testbit_one_shifted, Z.eqb_refl by lia.
    rewrite orb_true_r, andb_true_r. apply Z.ltb_lt. lia.
  - intros k Hk.
    rewrite testbit_u8, Z.lor_spec, testbit_one_shifted by lia.
    rewrite (proj2 (Z.eqb_neq p k)) by lia. rewrite orb_false_r.
    destruct (Z.ltb_spec k 8) as [Hlt | Hge]; [reflexivity|].
    now rewrite testbit_byte_high.
Qed.

Lemma clear_bit_of_byte (b p : Z) :
  0 <= b < 256 -> 0 <= p <= 7 ->
  Z.testbit (u8 (Z.land b (Z.lnot (Z.shiftl 1 p)))) p = false
  /\ forall k, k <> p ->
       Z.testbit (u8 (Z.land b (Z.lnot (Z.shiftl 1 p)))) k = Z.testbit b k.
Proof.
  intros Hb Hp. split.
  - rewrite testbit_u8, Z.land_spec, Z.lnot_spec, testbit_one_shifted,
      Z.eqb_refl by lia.
    now rewrite andb_false_r, andb_false_r.
  - intros k Hk.
    destruct (Z.ltb_spec k 0) as [Hneg | Hpos];
      [now rewrite !Z.testbit_neg_r|].
    rewrite testbit_u8, Z.land_spec, Z.lnot_spec, testbit_one_shifted by lia.
    rewrite (proj2 (Z.eqb_neq p k)) by lia. cbn [negb]. rewrite andb_true_r.
    destruct (Z.ltb_spec k 8) as [Hlt | Hge]; [reflexivity|].
    now rewrite testbit_byte_high.
Qed.

(** ** Claims about the bit helpers *)

(** C8. On the lossless bus, for every bit position [p] in [0,7] and every
    prior byte of the register: [I2CDeviceWriteBit] with a true (non-zero)
    value followed by [I2CDeviceReadBit] returns a non-zero value, with a
    false (zero) value it returns zero, and every bit of the register other
    than [p] is as it was before the write. *)
Theorem WriteBit_then_ReadBit :
  forall (fuel : nat) (dev reg p value : Z) (s : sim),
    (1 < fuel)%nat -> 0 <= p <= 7 ->
    0 <= regs s (Z.land dev 0xFE) reg < 256 ->
    exists (r : Z) (s' : sim),
      bind (I2CDeviceWriteBit fuel dev reg p value)
           (fun _ => I2CDeviceReadBit fuel dev reg p) s = Done (r, s')
      /\ (value <> 0 -> r <> 0)
      /\ (value = 0 -> r = 0)
      /\ (forall k, k <> p ->
            Z.testbit (regs s' (Z.land dev 0xFE) reg) k
            = Z.testbit (regs s (Z.land dev 0xFE) reg) k).
Proof.
  intros fuel dev reg p value s Hfuel Hp Hb.
  destruct fuel as [|[|fuel]]; [lia | lia |].
  set (b := regs s (Z.land dev 0xFE) reg) in *.
  set (b' := if value =? 0 then u8 (Z.land b (Z.lnot (Z.shiftl 1 p)))
             else u8 (Z.lor b (Z.shiftl 1 p))).
  exists (Z.land b' (Z.shiftl 1 p)),
         {| regs := poke (Z.land dev 0xFE) reg b' (regs s);
            ph := Idle; ptr := u8 (reg + 1) |}.
  split; [|split; [|split]].
  - assert (HW : I2CDeviceWriteBit (S (S fuel)) dev reg p value s
                 = Done (tt, {| regs := poke (Z.land dev 0xFE) reg b' (regs s);
                                ph := Idle; ptr := u8 (reg + 1) |})).
    { unfold I2CDeviceWriteBit.
      rewrite (bind_Done _ _ _ _ _ (ReadByte_lossless fuel dev reg s)).
      rewrite shl_int_one by lia. cbn [ub lift obind bind].
      fold b. fold b'. now rewrite WriteByte_lossless. }
    rewrite (bind_Done _ _ _ _ _ HW). unfold I2CDeviceReadBit.
    rewrite (bind_Done _ _ _ _ _ (ReadByte_lossless fuel dev reg _)).
    cbn [regs]. rewrite poke_same, shl_int_one by lia.
    cbn [ub lift obind bind ret].
    now rewrite u8_land_one_shifted by lia.
  - intros Hv. subst b'. rewrite (proj2 (Z.eqb_neq value 0) Hv).
    rewrite land_one_shifted by lia.
    rewrite (proj1 (set_bit_of_byte b p Hb Hp)).
    assert (0 < 2 ^ p) by (apply Z.pow_pos_nonneg; lia). lia.
  - intros ->. subst b'. cbn [Z.eqb].
    rewrite land_one_shifted by lia.
    now rewrite (proj1 (clear_bit_of_byte b p Hb Hp)).
  - intros k Hk. cbn [regs]. rewrite poke_same. subst b'.
    destruct (value =? 0).
    + now apply clear_bit_of_byte.
    + now apply set_bit_of_byte.
Qed.

Lemma WriteBit_then_ReadBit_witness :
  exists (r : Z) (s' : sim),
    bind (I2CDeviceWriteBit 2 0xB0 0x00 7 1)
         (fun _ => I2CDeviceReadBit 2 0xB0 0x00 7) (sim_filled 0x00)
    = Done (r, s')
    /\ (1 <> 0 -> r <> 0)
    /\ (1 = 0 -> r = 0)
    /\ (forall k, k <> 7 ->
          Z.testbit (regs s' (Z.land 0xB0 0xFE) 0x00) k
          = Z.testbit (regs (sim_filled 0x00) (Z.land 0xB0 0xFE) 0x00) k).
Proof.
  apply (WriteBit_then_ReadBit 2 0xB0 0x00 7 1 (sim_filled 0x00)).
  - lia.
  - lia.
  - cbn. lia.
Defined.

(** C9, as amended. For every bit position [p] in [0,7], [I2CDeviceReadBit]
    returns the register byte ANDed with [1 << p]: the unnormalized value
    [2^p] when the bit is set (0x80 for [p = 7]) and 0 exactly when the bit
    is clear. For [p] in [1,7] the value is never the normalized 1; for
    [p = 0] the value of a set bit, [2^0], is 1. *)
Theorem ReadBit_is_masked_byte :
  forall (B : Type) (bus : I2CBus B) (fuel : nat) (dev reg p b : Z) (s s' : B),
    0 <= p <= 7 ->
    I2CDeviceReadByte fuel dev reg s = Done (b, s') ->
    I2CDeviceReadBit fuel dev reg p s = Done (Z.land b (Z.shiftl 1 p), s')
    /\ (Z.testbit b p = true -> Z.land b (Z.shiftl 1 p) = 2 ^ p)
    /\ (Z.testbit b p = false <-> Z.land b (Z.shiftl 1 p) = 0)
    /\ (1 <= p -> Z.land b (Z.shiftl 1 p) <> 1)
    /\ (p = 0 -> Z.testbit b p = true -> Z.land b (Z.shiftl 1 p) = 1)
    /\ (p = 7 -> Z.testbit b p = true -> Z.land b (Z.shiftl 1 p) = 0x80).
Proof.
  intros B bus fuel dev reg p b s s' Hp Hread.
  assert (Hpow : 0 < 2 ^ p) by (apply Z.pow_pos_nonneg; lia).
  assert (Hbig : 1 <= p -> 2 <= 2 ^ p).
  { intros H1. change 2 with (2 ^ 1) at 1. apply Z.pow_le_mono_r; lia. }
  rewrite land_one_shifted by lia.
  split; [|split; [|split; [|split; [|split]]]].
  - unfold I2CDeviceReadBit.
    rewrite (bind_Done _ _ _ _ _ Hread), shl_int_one by lia.
    cbn [ub lift obind bind ret].
    now rewrite u8_land_one_shifted, land_one_shifted by lia.
  - now intros ->.
  - destruct (Z.testbit b p); split; intros; try reflexivity; try discriminate.
    lia.
  - intros H1. specialize (Hbig H1). destruct (Z.testbit b p); lia.
  - intros -> ->. reflexivity.
  - intros -> ->. reflexivity.
Qed.

Lemma ReadBit_is_masked_byte_witness :
  I2CDeviceReadBit 2 0xB0 0x00 7 (sim_filled 0xFF)
  = Done (Z.land 0xFF (Z.shiftl 1 7),
          {| regs := regs (sim_filled 0xFF); ph := Idle; ptr := u8 (0x00 + 1) |})
  /\ (Z.testbit 0xFF 7 = true -> Z.land 0xFF (Z.shiftl 1 7) = 2 ^ 7)
  /\ (Z.testbit 0xFF 7 = false <-> Z.land 0xFF (Z.shiftl 1 7) = 0)
  /\ (1 <= 7 -> Z.land 0xFF (Z.shiftl 1 7) <> 1)
  /\ (7 = 0 -> Z.testbit 0xFF 7 = true -> Z.land 0xFF (Z.shiftl 1 7) = 1)
  /\ (7 = 7 -> Z.testbit 0xFF 7 = true -> Z.land 0xFF (Z.shiftl 1 7) = 0x80).
Proof.
  apply (ReadBit_is_masked_byte sim sim_bus 2 0xB0 0x00 7 0xFF
           (sim_filled 0xFF)).
  - lia.
  - exact (ReadByte_lossless 0 0xB0 0x00 (sim_filled 0xFF)).
Defined.

(** C9 as stated fails at [p = 0]: with bit 0 of the register set, the
    value returned is the normalized 1. *)
Lemma ReadBit_returns_one_at_bit0 :
  returned (I2CDeviceReadBit 2 0xB0 0x00 0 (sim_filled 0x01)) = Done 1.
Proof. reflexivity. Qed.

(** C1 at a failing input. The register holds 0xFF; the one-bit field at
    bit 7 is written with 0 and read back. The mask the code computes,
    [(0xFF << 7) | (0xFF >> 7)] = 0x81, keeps the field's own bit and clears
    bits 1 to 6: the register becomes 0x81 and the field reads 1. *)
Lemma WriteBits_then_ReadBits_mismatch :
  with_register 0xB0 0x00
    (bind (I2CDeviceWriteBits 2 0xB0 0x00 7 1 0)
          (fun _ => I2CDeviceReadBits 2 0xB0 0x00 7 1) (sim_filled 0xFF))
  = Done (1, 0x81).
Proof. reflexivity. Qed.

(** The loop of [I2CDeviceReadBits] when the field reaches bit 0: the bound
    [bitStart - length] is -1, every value of the counter is greater, and
    after 0 the counter wraps to 255, where [1 << i] is undefined. *)
Lemma ReadBits_loop_bound_minus_one (len b : Z) (fuel : nat) :
  forall (i r : Z),
    0 <= i <= 255 -> returns (ReadBits_loop fuel i (len - 1) len b r) = false.
Proof.
  induction fuel as [|fuel IH]; intros i r Hi; cbn [ReadBits_loop].
  - reflexivity.
  - assert (Hgt : (i >? len - 1 - len) = true)
      by (rewrite Z.gtb_ltb; apply Z.ltb_lt; lia).
    rewrite Hgt. destruct (shl_int 1 i) as [m|]; cbn [ub obind].
    + apply IH. pose proof (u8_range (i - 1)). lia.
    + reflexivity.
Qed.

(** C2 at its failing inputs. For every [len] in [1,8] and
    [bitStart = len - 1] (a field that reaches bit 0, inside the contract),
    [I2CDeviceReadBits] does not return, on any bus and with any fuel. *)
Theorem ReadBits_never_returns_at_bit0 :
  forall (B : Type) (bus : I2CBus B) (fuel : nat) (dev reg len : Z) (s : B),
    1 <= len <= 8 ->
    returns (I2CDeviceReadBits fuel dev reg (len - 1) len s) = false.
Proof.
  intros B bus fuel dev reg len s Hlen.
  unfold I2CDeviceReadBits, bind at 1.
  destruct (I2CDeviceReadByte fuel dev reg s) as [[b s1]| |]; try reflexivity.
  unfold bind at 1, lift at 1.
  pose proof (ReadBits_loop_bound_minus_one len b fuel (len - 1) 0
                ltac:(lia)) as Hloop.
  destruct (ReadBits_loop fuel (len - 1) (len - 1) len b 0);
    [discriminate | reflexivity | reflexivity].
Qed.

Lemma ReadBits_never_returns_at_bit0_witness :
  returns (I2CDeviceReadBits 300 0xB0 0x00 (1 - 1) 1 (sim_filled 0xFF)) = false.
Proof.
  apply (ReadBits_never_returns_at_bit0 sim sim_bus 300 0xB0 0x00 1
           (sim_filled 0xFF)).
  lia.
Defined.

(** ** The byte-write primitive on the hardware *)

Lemma other_mode_not_master (h : MSSP.sfr) :
  MSSP.other_mode h = negb (MSSP.master_mode h).
Proof. unfold MSSP.other_mode, MSSP.master_mode. now rewrite negb_orb. Qed.

Lemma status_codes :
  MSSP.STATUS_OK = 0 /\ MSSP.STATUS_COLLISION = 255 /\ MSSP.STATUS_NACK = 254.
Proof. repeat split. Qed.

(** What [I2CWrite] returns, path by path. *)
Lemma I2CWrite_paths (hw : MSSP.hardware) (fuel : nat) (data_out : Z)
    (h : MSSP.sfr) :
  let L := MSSP.bits hw in
  let h1 := MSSP.on_load hw data_out h in
  MSSP.I2CWrite hw fuel data_out h
  = if Z.testbit (MSSP.SSP1CON1 h1) (MSSP.WCOL L) then
      Done (MSSP.STATUS_COLLISION, h1)
    else if MSSP.master_mode h1 then
      match MSSP.wait_while hw
              (fun h => Z.testbit (MSSP.SSP1STAT h) (MSSP.BF L)) fuel h1 with
      | Done (_, h2) =>
          match MSSP.wait_while hw (MSSP.bus_busy hw) fuel h2 with
          | Done (_, h3) =>
              Done (if nack_seen L true h3 then MSSP.STATUS_NACK
                    else MSSP.STATUS_OK, h3)
          | Undefined => Undefined
          | Timeout => Timeout
          end
      | Undefined => Undefined
      | Timeout => Timeout
      end
    else
      match MSSP.wait_while hw
              (fun h => negb (Z.testbit (MSSP.PIR1 h) (MSSP.SSP1IF L))) fuel
              (MSSP.with_CON1 (fun r => MSSP.set_bit r (MSSP.CKP L)) h1) with
      | Done (_, h2) =>
          Done (if nack_seen L false h2 then MSSP.STATUS_NACK
                else MSSP.STATUS_OK, h2)
      | Undefined => Undefined
      | Timeout => Timeout
      end.
Proof.
  intros L h1. unfold MSSP.I2CWrite, bind, MSSP.update, MSSP.read, ret.
  fold L. fold h1.
  destruct (Z.testbit (MSSP.SSP1CON1 h1) (MSSP.WCOL L)); [reflexivity|].
  cbv beta. rewrite other_mode_not_master.
  destruct (MSSP.master_mode h1) eqn:Hm; cbn [negb]; cbv beta;
    rewrite ?Hm; cbv beta.
  - destruct (MSSP.wait_while hw _ fuel h1) as [[[] h2]| |]; try reflexivity.
    destruct (MSSP.wait_while hw _ fuel h2) as [[[] h3]| |]; try reflexivity.
    unfold nack_seen. cbv beta iota.
    now destruct (Z.testbit (MSSP.SSP1CON2 h3) (MSSP.ACKSTAT L)).
  - destruct (MSSP.wait_while hw _ fuel _) as [[[] h2]| |]; try reflexivity.
    unfold nack_seen. cbv beta iota. now destruct (negb _ && negb _).
Qed.

Lemma wait_while_defined (hw : MSSP.hardware) (c : MSSP.sfr -> bool)
    (fuel : nat) :
  forall h, MSSP.wait_while hw c fuel h <> Undefined.
Proof.
  induction fuel as [|fuel IH]; intros h; cbn [MSSP.wait_while].
  - discriminate.
  - destruct (c h); [apply IH | discriminate].
Qed.

(** C7. [I2CWrite] returns one of three pairwise distinct status bytes:
    255 (from [return -1]) when the store into the transmit register
    collided, 254 (from [return -2]) when there was no collision and the
    byte was not acknowledged, and 0 exactly when there was no collision and
    the transfer completed acknowledged. The call returns as soon as the
    flags it polls settle within the fuel, and it never falls off its end. *)
Theorem I2CWrite_status_codes :
  forall (hw : MSSP.hardware) (fuel : nat) (data_out : Z) (h : MSSP.sfr),
    let L := MSSP.bits hw in
    let h1 := MSSP.on_load hw data_out h in
    let collided := Z.testbit (MSSP.SSP1CON1 h1) (MSSP.WCOL L) in
    let master := MSSP.master_mode h1 in
    (MSSP.STATUS_OK = 0
     /\ MSSP.STATUS_COLLISION <> 0 /\ MSSP.STATUS_NACK <> 0
     /\ MSSP.STATUS_COLLISION <> MSSP.STATUS_NACK)
    /\ (collided = true ->
        MSSP.I2CWrite hw fuel data_out h = Done (MSSP.STATUS_COLLISION, h1))
    /\ (collided = false -> master = true ->
        forall h2 h3,
          MSSP.wait_while hw
            (fun h => Z.testbit (MSSP.SSP1STAT h) (MSSP.BF L)) fuel h1
          = Done (tt, h2) ->
          MSSP.wait_while hw (MSSP.bus_busy hw) fuel h2 = Done (tt, h3) ->
          MSSP.I2CWrite hw fuel data_out h
          = Done (if Z.testbit (MSSP.SSP1CON2 h3) (MSSP.ACKSTAT L)
                  then MSSP.STATUS_NACK else MSSP.STATUS_OK, h3))
    /\ (collided = false -> master = false ->
        forall h2,
          MSSP.wait_while hw
            (fun h => negb (Z.testbit (MSSP.PIR1 h) (MSSP.SSP1IF L))) fuel
            (MSSP.with_CON1 (fun r => MSSP.set_bit r (MSSP.CKP L)) h1)
          = Done (tt, h2) ->
          MSSP.I2CWrite hw fuel data_out h
          = Done (if nack_seen L false h2
                  then MSSP.STATUS_NACK else MSSP.STATUS_OK, h2))
    /\ (forall st h',
          MSSP.I2CWrite hw fuel data_out h = Done (st, h') ->
          (st = MSSP.STATUS_COLLISION <-> collided = true)
          /\ (st = MSSP.STATUS_NACK
              <-> collided = false /\ nack_seen L master h' = true)
          /\ (st = MSSP.STATUS_OK
              <-> collided = false /\ nack_seen L master h' = false))
    /\ MSSP.I2CWrite hw fuel data_out h <> Undefined.
Proof.
  intros hw fuel data_out h L h1 collided master.
  pose proof (I2CWrite_paths hw fuel data_out h) as Hpaths.
  cbv zeta in Hpaths. fold L h1 in Hpaths. fold collided master in Hpaths.
  pose proof (wait_while_defined hw) as Hdefined.
  clearbody collided master.
  destruct status_codes as (Hok & Hcol & Hnack).
  rewrite Hok, Hcol, Hnack in *.
  split; [repeat split; discriminate|].
  split; [intros Hc; now rewrite Hpaths, Hc|].
  split; [intros Hc Hm h2 h3 H2 H3; now rewrite Hpaths, Hc, Hm, H2, H3|].
  split; [intros Hc Hm h2 H2; now rewrite Hpaths, Hc, Hm, H2|].
  rewrite Hpaths. clear Hpaths.
  destruct collided; [split; [|discriminate]|].
  { intros st h' Hret. injection Hret as <- <-. intuition congruence. }
  destruct master.
  - pose proof (Hdefined (fun h => Z.testbit (MSSP.SSP1STAT h) (MSSP.BF L))
                         fuel h1) as Hw1.
    destruct (MSSP.wait_while hw _ fuel h1) as [[[] h2]| |];
      [|contradiction|split; [discriminate|discriminate]].
    pose proof (Hdefined (MSSP.bus_busy hw) fuel h2) as Hw2.
    destruct (MSSP.wait_while hw _ fuel h2) as [[[] h3]| |];
      [|contradiction|split; [discriminate|discriminate]].
    split; [|discriminate].
    intros st h' Hret. injection Hret as <- <-.
    unfold nack_seen.
    destruct (Z.testbit (MSSP.SSP1CON2 h3) (MSSP.ACKSTAT L));
      intuition congruence.
  - match goal with
    | |- context [MSSP.wait_while hw ?c fuel ?x] =>
        pose proof (Hdefined c fuel x) as Hw1;
        destruct (MSSP.wait_while hw c fuel x) as [[[] h2]| |];
          [|contradiction|split; [discriminate|discriminate]]
    end.
    split; [|discriminate].
    intros st h' Hret. injection Hret as <- <-.
    unfold nack_seen. destruct (negb _ && negb _); intuition congruence.
Qed.

Lemma I2CWrite_status_codes_witness :
  MSSP.I2CWrite acking_mssp 2 0x10 master_idle
  = Done (MSSP.STATUS_OK,
          {| MSSP.SSP1BUF := 0x10; MSSP.SSP1CON1 := 0x28; MSSP.SSP1CON2 := 0;
             MSSP.SSP1STAT := 0; MSSP.PIR1 := 8 |}).
Proof.
  destruct (I2CWrite_status_codes acking_mssp 2 0x10 master_idle)
    as (_ & _ & Hmaster & _).
  exact (Hmaster eq_refl eq_refl
           {| MSSP.SSP1BUF := 0x10; MSSP.SSP1CON1 := 0x28; MSSP.SSP1CON2 := 0;
              MSSP.SSP1STAT := 0; MSSP.PIR1 := 8 |}
           {| MSSP.SSP1BUF := 0x10; MSSP.SSP1CON1 := 0x28; MSSP.SSP1CON2 := 0;
              MSSP.SSP1STAT := 0; MSSP.PIR1 := 8 |}
           eq_refl eq_refl).
Defined.

(** ** [I2CDeviceReadBits] on fields that stay above bit 0 *)

Lemma Zrange_complete (lo : Z) (k : nat) (x : Z) :
  lo <= x < lo + Z.of_nat k -> In x (Zrange lo k).
Proof.
  intros Hx. unfold Zrange. apply in_map_iff.
  exists (Z.to_nat (x - lo)). split; [lia|]. apply in_seq. lia.
Qed.

Lemma ReadBits_loop_more_fuel (s n b : Z) (f : nat) :
  forall (f' : nat) (i r x : Z),
    (f <= f')%nat ->
    ReadBits_loop f i s n b r = Done x -> ReadBits_loop f' i s n b r = Done x.
Proof.
  induction f as [|f IH]; intros f' i r x Hf Hloop; [discriminate|].
  destruct f' as [|f']; [lia|].
  cbn [ReadBits_loop] in *.
  destruct (i >? s - n); [|assumption].
  destruct (shl_int 1 i) as [m|]; cbn [ub obind] in *; [|discriminate].
  apply IH; [lia | assumption].
Qed.

Lemma reads_field_everywhere :
  forallb (fun n =>
    forallb (fun s =>
      forallb (fun b => if n <=? s then reads_field n s b else true)
              (Zrange 0 256))
            (Zrange 0 8))
          (Zrange 1 8) = true.
Proof. vm_compute. reflexivity. Qed.

(** When the field does not reach bit 0 ([len <= bitStart <= 7]),
    [I2CDeviceReadBits] returns bits [[bitStart-len+1 .. bitStart]] of the
    register byte, right-aligned. *)
Lemma ReadBits_returns_field (B : Type) (bus : I2CBus B) (fuel : nat)
    (dev reg bitStart len b : Z) (s s' : B) :
  1 <= len -> len <= bitStart <= 7 -> 0 <= b < 256 -> (9 <= fuel)%nat ->
  I2CDeviceReadByte fuel dev reg s = Done (b, s') ->
  I2CDeviceReadBits fuel dev reg bitStart len s
  = Done (bit_field b bitStart len, s').
Proof.
  intros Hlen Hstart Hb Hfuel Hread.
  pose proof reads_field_everywhere as Hall.
  rewrite forallb_forall in Hall.
  specialize (Hall len (Zrange_complete 1 8 len ltac:(lia))).
  rewrite forallb_forall in Hall.
  specialize (Hall bitStart (Zrange_complete 0 8 bitStart ltac:(lia))).
  rewrite forallb_forall in Hall.
  specialize (Hall b (Zrange_complete 0 256 b ltac:(lia))).
  rewrite (proj2 (Z.leb_le len bitStart)) in Hall by lia.
  unfold reads_field in Hall.
  destruct (ReadBits_loop 9 bitStart bitStart len b 0) as [r| |] eqn:Hloop;
    try discriminate.
  destruct (shr_int r (bitStart - len + 1)) as [r'|] eqn:Hshift;
    try discriminate.
  apply Z.eqb_eq in Hall.
  unfold I2CDeviceReadBits.
  rewrite (bind_Done _ _ _ _ _ Hread).
  rewrite (ReadBits_loop_more_fuel _ _ _ 9 fuel _ _ _ Hfuel Hloop).
  cbn [lift obind bind]. rewrite Hshift. cbn [ub lift obind bind ret].
  now rewrite Hall.
Qed.

(** ** The register layer on the hardware *)

(** On a peripheral whose slave acknowledges, one register write runs
    through the primitives of [MSSP] and returns, the byte in [SSP1BUF]. *)
Lemma WriteByte_on_hardware :
  @I2CDeviceWriteByte MSSP.sfr (mssp_bus acking_mssp 2) 2 0xB0 0x00 0x10
                      master_idle
  = Done (tt, {| MSSP.SSP1BUF := 0x10; MSSP.SSP1CON1 := 0x28;
                 MSSP.SSP1CON2 := 0; MSSP.SSP1STAT := 0; MSSP.PIR1 := 8 |}).
Proof. reflexivity. Qed.

(** ** What [I2CDeviceWriteBits] stores *)

Lemma shr_int_defined (a k : Z) :
  0 <= a -> 0 <= k < 16 -> shr_int a k = Some (Z.shiftr a k).
Proof.
  intros Ha Hk. unfold shr_int, INT_BITS.
  rewrite (proj2 (Z.leb_le 0 k)), (proj2 (Z.ltb_lt k 16)),
    (proj2 (Z.leb_le 0 a)) by lia.
  reflexivity.
Qed.

Lemma shl_int_byte (v k : Z) :
  0 <= v < 256 -> 0 <= k <= 7 -> shl_int v k = Some (Z.shiftl v k).
Proof.
  intros Hv Hk. unfold shl_int, INT_BITS, INT_MAX.
  rewrite (proj2 (Z.leb_le 0 k)), (proj2 (Z.ltb_lt k 16)),
    (proj2 (Z.leb_le 0 v)) by lia.
  rewrite Z.shiftl_mul_pow2 by lia.
  assert (0 < 2 ^ k <= 2 ^ 7)
    by (split; [apply Z.pow_pos_nonneg | apply Z.pow_le_mono_r]; lia).
  rewrite (proj2 (Z.leb_le (v * 2 ^ k) 32767)) by nia.
  reflexivity.
Qed.

(** Inside the contract [I2CDeviceWriteBits] is defined, and the byte it
    writes back is the prior byte ANDed with the mask
    [(0xFF << (8 - length)) | (0xFF >> (bitStart + length - 1))], ORed with
    the value moved into the field. *)
Lemma WriteBits_lossless (fuel : nat) (dev reg bitStart len value : Z)
    (s : sim) :
  1 <= len <= 8 -> len - 1 <= bitStart <= 7 -> 0 <= value < 256 ->
  let b := regs s (Z.land dev 0xFE) reg in
  let mask := u8 (Z.lor (Z.shiftl 0xFF (8 - len))
                        (Z.shiftr 0xFF (bitStart + len - 1))) in
  let field := u8 (Z.shiftr (u8 (Z.shiftl value (8 - len))) (7 - bitStart)) in
  I2CDeviceWriteBits (S (S fuel)) dev reg bitStart len value s
  = Done (tt, {| regs := poke (Z.land dev 0xFE) reg
                              (u8 (Z.lor (u8 (Z.land b mask)) field)) (regs s);
                 ph := Idle; ptr := u8 (reg + 1) |}).
Proof.
  intros Hlen Hstart Hvalue b mask field. unfold I2CDeviceWriteBits.
  rewrite (bind_Done _ _ _ _ _ (ReadByte_lossless fuel dev reg s)).
  rewrite (shl_int_byte 0xFF (8 - len)) by lia.
  rewrite (shr_int_defined 0xFF (bitStart + len - 1)) by lia.
  rewrite (shl_int_byte value (8 - len)) by lia.
  cbn [ub lift obind bind].
  rewrite (shr_int_defined (u8 (Z.shiftl value (8 - len))) (7 - bitStart))
    by (pose proof (u8_range (Z.shiftl value (8 - len))); lia).
  cbn [ub lift obind bind].
  now rewrite WriteByte_lossless.
Qed.

(** ** The examples in the comments of the source *)

(** [I2CDeviceReadBits]: byte 01101001, bitStart 4, length 3 gives 010. *)
Example ReadBits_source_comment :
  returned (I2CDeviceReadBits 4 0xB0 0x00 4 3 (sim_filled 0x69)) = Done 2.
Proof. reflexivity. Qed.

(** [I2CDeviceWriteBits]: value 010, bitStart 4, length 3, original byte
    10101111: mask 11100011, result 10101011. *)
Example WriteBits_source_comment :
  with_register 0xB0 0x00
    (I2CDeviceWriteBits 2 0xB0 0x00 4 3 2 (sim_filled 0xAF))
  = Done (tt, 0xAB)
  /\ u8 (Z.lor (Z.shiftl 0xFF (8 - 3)) (Z.shiftr 0xFF (4 + 3 - 1))) = 0xE3.
Proof. split; reflexivity. Qed.

(** * Further properties *)

(** ** The signalling primitives on the hardware *)

Lemma polls_succ (hw : MSSP.hardware) (k : nat) (h : MSSP.sfr) :
  polls hw (S k) h = polls hw k (MSSP.tick hw h).
Proof. unfold polls. now rewrite Nat.iter_succ_r. Qed.

(** [while (c);] returns the state of the first poll at which [c] is false. *)
Lemma wait_while_first_clear (hw : MSSP.hardware) (c : MSSP.sfr -> bool)
    (fuel : nat) :
  forall h h',
    MSSP.wait_while hw c fuel h = Done (tt, h') <->
    exists k, (k < fuel)%nat /\ h' = polls hw k h /\ c h' = false
              /\ forall j, (j < k)%nat -> c (polls hw j h) = true.
Proof.
  induction fuel as [|fuel IH]; intros h h'; cbn [MSSP.wait_while].
  - split; [discriminate | intros (k & Hk & _); lia].
  - destruct (c h) eqn:Hc.
    + rewrite IH. split.
      * intros (k & Hk & Hh' & Hclear & Hbusy).
        exists (S k). rewrite polls_succ. repeat split; [lia | assumption.. |].
        intros [|j] Hj; [exact Hc|]. rewrite polls_succ. apply Hbusy. lia.
      * intros (k & Hk & Hh' & Hclear & Hbusy).
        destruct k as [|k].
        { cbn in Hh'. subst h'. congruence. }
        exists k. rewrite polls_succ in Hh'. repeat split; [lia | assumption.. |].
        intros j Hj. rewrite <- polls_succ. apply Hbusy. lia.
    + split.
      * intros Heq. injection Heq as <-.
        exists 0%nat. repeat split; [lia | assumption | intros j Hj; lia].
      * intros (k & Hk & Hh' & Hclear & Hbusy).
        destruct k as [|k]; [cbn in Hh'; now subst|].
        specialize (Hbusy 0%nat ltac:(lia)). cbn in Hbusy. congruence.
Qed.

Lemma wait_while_stuck (hw : MSSP.hardware) (c : MSSP.sfr -> bool) (fuel : nat) :
  forall h,
    (forall k, c (polls hw k h) = true) ->
    MSSP.wait_while hw c fuel h = Timeout.
Proof.
  induction fuel as [|fuel IH]; intros h Hstuck; cbn [MSSP.wait_while].
  - reflexivity.
  - rewrite (Hstuck 0%nat : c h = true). apply IH.
    intros k. rewrite <- polls_succ. apply Hstuck.
Qed.

Lemma testbit_set_bit (r k : Z) :
  0 <= k < 8 -> Z.testbit (MSSP.set_bit r k) k = true.
Proof.
  intros Hk. unfold MSSP.set_bit.
  rewrite testbit_u8, Z.lor_spec, testbit_one_shifted, Z.eqb_refl by lia.
  rewrite orb_true_r, andb_true_r. apply Z.ltb_lt. lia.
Qed.

Lemma testbit_set_bit_other (r k j : Z) :
  0 <= k -> 0 <= r < 256 -> j <> k ->
  Z.testbit (MSSP.set_bit r k) j = Z.testbit r j.
Proof.
  intros Hk Hr Hj. unfold MSSP.set_bit.
  rewrite testbit_u8, Z.lor_spec, testbit_one_shifted by lia.
  rewrite (proj2 (Z.eqb_neq k j)) by lia. rewrite orb_false_r.
  destruct (Z.ltb_spec j 8); [reflexivity|]. now rewrite testbit_byte_high.
Qed.

(** X7. Each of the five signalling primitives raises its request bit in
    [SSP1CON2] and returns the state of the first poll at which the
    peripheral has cleared it: on return the bit is clear, and the state is
    the one reached after fewer polls than the fuel. *)
Theorem signalling_returns_when_request_cleared :
  forall (hw : MSSP.hardware) (fuel : nat) (h h' : MSSP.sfr),
    let L := MSSP.bits hw in
    let cleared (prim : prog MSSP.sfr unit) (request : Z -> Z) (bit : Z) :=
      prim h = Done (tt, h') ->
      Z.testbit (MSSP.SSP1CON2 h') bit = false
      /\ exists k, (k < fuel)%nat
                   /\ h' = polls hw k (MSSP.with_CON2 request h) in
    cleared (MSSP.I2CStart hw fuel)
            (fun r => MSSP.set_bit r (MSSP.SEN L)) (MSSP.SEN L)
    /\ cleared (MSSP.I2CRestart hw fuel)
               (fun r => MSSP.set_bit r (MSSP.RSEN L)) (MSSP.RSEN L)
    /\ cleared (MSSP.I2CStop hw fuel)
               (fun r => MSSP.set_bit r (MSSP.PEN L)) (MSSP.PEN L)
    /\ cleared (MSSP.I2CAck hw fuel)
               (fun r => MSSP.set_bit (MSSP.clear_bit r (MSSP.ACKDT L))
                                      (MSSP.ACKEN L)) (MSSP.ACKEN L)
    /\ cleared (MSSP.I2CNotAck hw fuel)
               (fun r => MSSP.set_bit (MSSP.set_bit r (MSSP.ACKDT L))
                                      (MSSP.ACKEN L)) (MSSP.ACKEN L).
Proof.
  intros hw fuel h h' L cleared. subst cleared. cbv beta.
  assert (Hwait : forall request bit,
    MSSP.wait_while hw (fun h0 => Z.testbit (MSSP.SSP1CON2 h0) bit) fuel
                    (MSSP.with_CON2 request h) = Done (tt, h') ->
    Z.testbit (MSSP.SSP1CON2 h') bit = false
    /\ exists k, (k < fuel)%nat /\ h' = polls hw k (MSSP.with_CON2 request h)).
  { intros request bit Hret. apply wait_while_first_clear in Hret.
    destruct Hret as (k & Hk & Hh' & Hclear & _).
    split; [exact Hclear | exists k; split; assumption]. }
  split; [|split; [|split; [|split]]]; intros Hret; apply Hwait; exact Hret.
Qed.

Lemma signalling_returns_when_request_cleared_witness :
  Z.testbit (MSSP.SSP1CON2 (polls acking_mssp 1
               (MSSP.with_CON2 (fun r => MSSP.set_bit r 0) master_idle))) 0
  = false
  /\ exists k, (k < 2)%nat
               /\ polls acking_mssp 1
                    (MSSP.with_CON2 (fun r => MSSP.set_bit r 0) master_idle)
                  = polls acking_mssp k
                      (MSSP.with_CON2 (fun r => MSSP.set_bit r 0) master_idle).
Proof.
  destruct (signalling_returns_when_request_cleared acking_mssp 2 master_idle
              (polls acking_mssp 1
                 (MSSP.with_CON2 (fun r => MSSP.set_bit r 0) master_idle)))
    as (Hstart & _).
  exact (Hstart eq_refl).
Defined.

(** X8. There is no timeout in the primitives. On a peripheral that makes
    no progress between polls, none of the five signalling primitives
    returns, whatever the fuel; [I2CRead] does not return when no byte is
    waiting ([BF] clear), and [I2CWrite] in master mode does not return when
    the buffer stays full after an uncollided store. *)
Theorem dead_bus_blocks_forever :
  forall (hw : MSSP.hardware) (fuel : nat) (h : MSSP.sfr) (data_out : Z),
    let L := MSSP.bits hw in
    layout_in_byte L ->
    (forall h0, MSSP.tick hw h0 = h0) ->
    MSSP.I2CStart hw fuel h = Timeout
    /\ MSSP.I2CRestart hw fuel h = Timeout
    /\ MSSP.I2CStop hw fuel h = Timeout
    /\ MSSP.I2CAck hw fuel h = Timeout
    /\ MSSP.I2CNotAck hw fuel h = Timeout
    /\ (Z.testbit (MSSP.SSP1STAT h) (MSSP.BF L) = false ->
        MSSP.I2CRead hw fuel h = Timeout)
    /\ (Z.testbit (MSSP.SSP1CON1 (MSSP.on_load hw data_out h)) (MSSP.WCOL L)
        = false ->
        MSSP.master_mode (MSSP.on_load hw data_out h) = true ->
        Z.testbit (MSSP.SSP1STAT (MSSP.on_load hw data_out h)) (MSSP.BF L)
        = true ->
        MSSP.I2CWrite hw fuel data_out h = Timeout).
Proof.
  intros hw fuel h data_out L HL Hdead.
  destruct HL as (HSEN & HRSEN & HPEN & HRCEN & HACKEN & HACKDT & HBF & HIF & HCKP).
  assert (Hpolls : forall k h0, polls hw k h0 = h0).
  { intros k h0. unfold polls. induction k as [|k IH]; [reflexivity|].
    rewrite Nat.iter_succ. now rewrite IH, Hdead. }
  assert (Hstuck : forall c h0, c h0 = true ->
                     MSSP.wait_while hw c fuel h0 = Timeout).
  { intros c h0 Hc. apply wait_while_stuck. intros k. now rewrite Hpolls. }
  repeat match goal with |- _ /\ _ => split end.
  - unfold MSSP.I2CStart, bind, MSSP.update. apply Hstuck.
    cbn [MSSP.SSP1CON2 MSSP.with_CON2]. now apply testbit_set_bit.
  - unfold MSSP.I2CRestart, bind, MSSP.update. apply Hstuck.
    cbn [MSSP.SSP1CON2 MSSP.with_CON2]. now apply testbit_set_bit.
  - unfold MSSP.I2CStop, bind, MSSP.update. apply Hstuck.
    cbn [MSSP.SSP1CON2 MSSP.with_CON2]. now apply testbit_set_bit.
  - unfold MSSP.I2CAck, bind, MSSP.update. apply Hstuck.
    cbn [MSSP.SSP1CON2 MSSP.with_CON2]. now apply testbit_set_bit.
  - unfold MSSP.I2CNotAck, bind, MSSP.update. apply Hstuck.
    cbn [MSSP.SSP1CON2 MSSP.with_CON2]. now apply testbit_set_bit.
  - intros Hempty. unfold MSSP.I2CRead, bind, MSSP.read, MSSP.update, ret.
    destruct (MSSP.master_mode h).
    + rewrite Hstuck; [reflexivity|].
      cbn [MSSP.SSP1STAT MSSP.with_CON2]. fold L. now rewrite Hempty.
    + rewrite Hstuck; [reflexivity|]. fold L. now rewrite Hempty.
  - intros Hcol Hmaster Hfull.
    rewrite I2CWrite_paths. cbv zeta. fold L. rewrite Hcol, Hmaster.
    now rewrite Hstuck.
Qed.

Lemma dead_bus_blocks_forever_witness :
  MSSP.I2CStart dead_mssp 1000 master_idle = Timeout
  /\ MSSP.I2CRestart dead_mssp 1000 master_idle = Timeout
  /\ MSSP.I2CStop dead_mssp 1000 master_idle = Timeout
  /\ MSSP.I2CAck dead_mssp 1000 master_idle = Timeout
  /\ MSSP.I2CNotAck dead_mssp 1000 master_idle = Timeout
  /\ (Z.testbit (MSSP.SSP1STAT master_idle) 0 = false ->
      MSSP.I2CRead dead_mssp 1000 master_idle = Timeout)
  /\ (Z.testbit (MSSP.SSP1CON1 (MSSP.on_load dead_mssp 0x10 master_idle)) 7
      = false ->
      MSSP.master_mode (MSSP.on_load dead_mssp 0x10 master_idle) = true ->
      Z.testbit (MSSP.SSP1STAT (MSSP.on_load dead_mssp 0x10 master_idle)) 0
      = true ->
      MSSP.I2CWrite dead_mssp 1000 0x10 master_idle = Timeout).
Proof.
  apply (dead_bus_blocks_forever dead_mssp 1000 master_idle 0x10).
  - unfold layout_in_byte. cbn. lia.
  - reflexivity.
Defined.

(** X9. When [I2CRead] returns, the byte it returns is the content of
    [SSP1BUF] at the first poll that finds [BF] set, and the state is that
    one after the read of the buffer. It asks for reception ([RCEN]) only in
    the two master modes; in any other mode it polls the registers as they
    are. *)
Theorem I2CRead_returns_received_byte :
  forall (hw : MSSP.hardware) (fuel : nat) (h h' : MSSP.sfr) (x : Z),
    MSSP.I2CRead hw fuel h = Done (x, h') ->
    let L := MSSP.bits hw in
    let h0 := if MSSP.master_mode h
              then MSSP.with_CON2 (fun r => MSSP.set_bit r (MSSP.RCEN L)) h
              else h in
    exists (k : nat) (h2 : MSSP.sfr),
      (k < fuel)%nat /\ h2 = polls hw k h0
      /\ Z.testbit (MSSP.SSP1STAT h2) (MSSP.BF L) = true
      /\ (forall j, (j < k)%nat ->
            Z.testbit (MSSP.SSP1STAT (polls hw j h0)) (MSSP.BF L) = false)
      /\ x = MSSP.SSP1BUF h2 /\ h' = MSSP.on_unload hw h2.
Proof.
  intros hw fuel h h' x Hret L h0.
  unfold MSSP.I2CRead, bind, MSSP.read, MSSP.update, ret in Hret.
  fold L in Hret.
  assert (Hwait : match MSSP.wait_while hw
                    (fun h1 => negb (Z.testbit (MSSP.SSP1STAT h1) (MSSP.BF L)))
                    fuel h0 with
                  | Done (_, s') => Done (MSSP.SSP1BUF s', MSSP.on_unload hw s')
                  | Undefined => Undefined
                  | Timeout => Timeout
                  end = Done (x, h')).
  { subst h0. destruct (MSSP.master_mode h); exact Hret. }
  clear Hret.
  destruct (MSSP.wait_while hw _ fuel h0) as [[[] h2]| |] eqn:Hw;
    try discriminate.
  injection Hwait as <- <-.
  apply wait_while_first_clear in Hw.
  destruct Hw as (k & Hk & Hh2 & Hfull & Hempty).
  exists k, h2. repeat split; try assumption.
  - now apply negb_false_iff in Hfull.
  - intros j Hj. specialize (Hempty j Hj). now apply negb_true_iff in Hempty.
Qed.

Lemma I2CRead_returns_received_byte_witness :
  exists (k : nat) (h2 : MSSP.sfr),
    (k < 1)%nat
    /\ h2 = polls acking_mssp k
              (MSSP.with_CON2 (fun r => MSSP.set_bit r 3) (byte_received 0x5A))
    /\ Z.testbit (MSSP.SSP1STAT h2) 0 = true
    /\ (forall j, (j < k)%nat ->
          Z.testbit (MSSP.SSP1STAT (polls acking_mssp j
             (MSSP.with_CON2 (fun r => MSSP.set_bit r 3) (byte_received 0x5A))))
                    0 = false)
    /\ 0x5A = MSSP.SSP1BUF h2
    /\ MSSP.on_unload acking_mssp
         (MSSP.with_CON2 (fun r => MSSP.set_bit r 3) (byte_received 0x5A))
       = MSSP.on_unload acking_mssp h2.
Proof.
  apply (I2CRead_returns_received_byte acking_mssp 1 (byte_received 0x5A)
           (MSSP.on_unload acking_mssp
              (MSSP.with_CON2 (fun r => MSSP.set_bit r 3) (byte_received 0x5A)))
           0x5A).
  reflexivity.
Defined.

(** ** [I2CDeviceReadBits] over all lengths *)

(** A negative bound [bitStart - length] is below every value of the
    counter: the loop runs until the counter wraps and the shift is
    undefined. *)
Lemma ReadBits_loop_negative_bound (bitStart len b : Z) (fuel : nat) :
  bitStart - len < 0 ->
  forall (i r : Z),
    0 <= i <= 255 -> returns (ReadBits_loop fuel i bitStart len b r) = false.
Proof.
  intros Hbound. induction fuel as [|fuel IH]; intros i r Hi;
    cbn [ReadBits_loop]; [reflexivity|].
  assert (Hgt : (i >? bitStart - len) = true)
    by (rewrite Z.gtb_ltb; apply Z.ltb_lt; lia).
  rewrite Hgt. destruct (shl_int 1 i) as [m|]; cbn [ub obind].
  - apply IH. pose proof (u8_range (i - 1)). lia.
  - reflexivity.
Qed.

(** X1. For [bitStart] in [0,7], any [length] and a register byte [b],
    [I2CDeviceReadBits] returns exactly when [length <= bitStart], and then
    the value is bits [[bitStart-length+1 .. bitStart]] of [b],
    right-aligned (0 for [length = 0]). For every longer length, the
    contract's [length = bitStart + 1] included, it does not return. *)
Theorem ReadBits_returns_iff_length_le_bitStart :
  forall (B : Type) (bus : I2CBus B) (fuel : nat)
         (dev reg bitStart len b : Z) (s s' : B),
    0 <= bitStart <= 7 -> 0 <= len <= 255 -> 0 <= b < 256 ->
    (9 <= fuel)%nat ->
    I2CDeviceReadByte fuel dev reg s = Done (b, s') ->
    (len <= bitStart ->
     I2CDeviceReadBits fuel dev reg bitStart len s
     = Done (bit_field b bitStart len, s'))
    /\ (bitStart < len ->
        returns (I2CDeviceReadBits fuel dev reg bitStart len s) = false).
Proof.
  intros B bus fuel dev reg bitStart len b s s' Hstart Hlen Hb Hfuel Hread.
  split.
  - intros Hle. destruct (Z.eq_dec len 0) as [-> | Hpos].
    + unfold I2CDeviceReadBits. rewrite (bind_Done _ _ _ _ _ Hread).
      destruct fuel as [|fuel]; [lia|]. cbn [ReadBits_loop].
      assert (Hstop : (bitStart >? bitStart - 0) = false)
        by (rewrite Z.gtb_ltb; apply Z.ltb_ge; lia).
      rewrite Hstop. cbn [lift obind bind].
      rewrite shr_int_defined by lia. cbn [ub lift obind bind ret].
      unfold bit_field. now rewrite Z.shiftr_0_l, Z.land_0_r.
    + apply (ReadBits_returns_field B bus fuel dev reg bitStart len b s s');
        try assumption; lia.
  - intros Hlt. unfold I2CDeviceReadBits.
    rewrite (bind_Done _ _ _ _ _ Hread). unfold bind at 1, lift at 1.
    pose proof (ReadBits_loop_negative_bound bitStart len b fuel
                  ltac:(lia) bitStart 0 ltac:(lia)) as Hloop.
    destruct (ReadBits_loop fuel bitStart bitStart len b 0);
      [discriminate | reflexivity | reflexivity].
Qed.

Lemma ReadBits_returns_iff_length_le_bitStart_witness :
  (3 <= 4 ->
   I2CDeviceReadBits 9 0xB0 0x00 4 3 (sim_filled 0x69)
   = Done (bit_field 0x69 4 3,
           {| regs := regs (sim_filled 0x69); ph := Idle; ptr := u8 (0x00 + 1) |}))
  /\ (4 < 3 ->
      returns (I2CDeviceReadBits 9 0xB0 0x00 4 3 (sim_filled 0x69)) = false).
Proof.
  apply (ReadBits_returns_iff_length_le_bitStart sim sim_bus 9 0xB0 0x00 4 3
           0x69 (sim_filled 0x69)).
  - lia.
  - lia.
  - lia.
  - lia.
  - exact (ReadByte_lossless 7 0xB0 0x00 (sim_filled 0x69)).
Defined.

(** ** Bit writes as two transactions *)

Lemma ReadByte_recorded (fuel : nat) (dev reg : Z) (m : recorder) :
  (1 < fuel)%nat ->
  let st := status_of m in
  let w := writes m in
  let x := byte_of m (reads m) in
  I2CDeviceReadByte fuel dev reg m
  = Done (x, after m [Start; Write (Z.land dev 0xFE) (st w);
                      Write reg (st (S w)); Restart;
                      Write (u8 (Z.lor dev 0x01)) (st (S (S w)));
                      Read x; NotAck; Stop] 3 1).
Proof.
  intros Hfuel st w x. unfold I2CDeviceReadByte.
  rewrite (bind_Done _ _ _ _ _
             (ReadBytes_recorded fuel dev reg 1 [0] m ltac:(lia)
                ltac:(cbn [length]; lia) Hfuel)).
  reflexivity.
Qed.

Lemma WriteByte_recorded (fuel : nat) (dev reg v : Z) (m : recorder) :
  (1 < fuel)%nat ->
  let st := status_of m in
  let w := writes m in
  I2CDeviceWriteByte fuel dev reg v m
  = Done (tt, after m [Start; Write (Z.land dev 0xFE) (st w);
                       Write reg (st (S w)); Write v (st (S (S w))); Stop]
                    3 0).
Proof.
  intros Hfuel st w. unfold I2CDeviceWriteByte.
  exact (WriteBytes_recorded fuel dev reg 1 [v] m ltac:(lia)
           ltac:(cbn [length]; lia) Hfuel).
Qed.

(** The operations of a one-byte read transaction followed by a one-byte
    write transaction of [b'], the read returning [x]. *)
Lemma read_then_write_recorded (fuel : nat) (dev reg : Z) (m : recorder)
    (modify : Z -> Z) :
  (1 < fuel)%nat ->
  let st := status_of m in
  let w := writes m in
  let x := byte_of m (reads m) in
  bind (I2CDeviceReadByte fuel dev reg)
       (fun b => I2CDeviceWriteByte fuel dev reg (modify b)) m
  = Done (tt, after m [Start; Write (Z.land dev 0xFE) (st w);
                       Write reg (st (1 + w)%nat); Restart;
                       Write (u8 (Z.lor dev 0x01)) (st (2 + w)%nat);
                       Read x; NotAck; Stop;
                       Start; Write (Z.land dev 0xFE) (st (3 + w)%nat);
                       Write reg (st (4 + w)%nat);
                       Write (modify x) (st (5 + w)%nat); Stop] 6 1).
Proof.
  intros Hfuel st w x.
  rewrite (bind_Done _ _ _ _ _ (ReadByte_recorded fuel dev reg m Hfuel)).
  rewrite (WriteByte_recorded fuel dev reg _ _ Hfuel).
  rewrite after_after. cbn [after writes status_of app].
  subst st w x. same_recorder.
Qed.

(** X4. [I2CDeviceWriteBit] is one complete single-byte read transaction
    followed by one complete single-byte write transaction, thirteen bus
    operations with four address bytes: the register is read with a
    Restart and a NotAck, and the byte written back is the byte read with
    bit [p] set (value non-zero) or cleared (value zero). No write status
    changes the sequence. *)
Theorem WriteBit_is_read_then_write :
  forall (fuel : nat) (dev reg p value : Z) (m : recorder),
    (1 < fuel)%nat -> 0 <= p <= 7 ->
    let st := status_of m in
    let w := writes m in
    let x := byte_of m (reads m) in
    let b' := if value =? 0 then u8 (Z.land x (Z.lnot (Z.shiftl 1 p)))
              else u8 (Z.lor x (Z.shiftl 1 p)) in
    I2CDeviceWriteBit fuel dev reg p value m
    = Done (tt, after m [Start; Write (Z.land dev 0xFE) (st w);
                         Write reg (st (1 + w)%nat); Restart;
                         Write (u8 (Z.lor dev 0x01)) (st (2 + w)%nat);
                         Read x; NotAck; Stop;
                         Start; Write (Z.land dev 0xFE) (st (3 + w)%nat);
                         Write reg (st (4 + w)%nat);
                         Write b' (st (5 + w)%nat); Stop] 6 1).
Proof.
  intros fuel dev reg p value m Hfuel Hp st w x b'. subst st w x b'.
  rewrite <- (read_then_write_recorded fuel dev reg m
                (fun b => if value =? 0
                          then u8 (Z.land b (Z.lnot (Z.shiftl 1 p)))
                          else u8 (Z.lor b (Z.shiftl 1 p))) Hfuel).
  unfold I2CDeviceWriteBit, bind.
  destruct (I2CDeviceReadByte fuel dev reg m) as [[b m1]| |]; try reflexivity.
  rewrite shl_int_one by lia. reflexivity.
Qed.

Lemma WriteBit_is_read_then_write_witness :
  I2CDeviceWriteBit 2 0xB0 0x00 7 1 (fresh (fun _ => 0) (fun _ => 0x01))
  = Done (tt, after (fresh (fun _ => 0) (fun _ => 0x01))
                [Start; Write (Z.land 0xB0 0xFE) 0; Write 0x00 0; Restart;
                 Write (u8 (Z.lor 0xB0 0x01)) 0; Read 0x01; NotAck; Stop;
                 Start; Write (Z.land 0xB0 0xFE) 0; Write 0x00 0;
                 Write (if 1 =? 0 then u8 (Z.land 0x01 (Z.lnot (Z.shiftl 1 7)))
                        else u8 (Z.lor 0x01 (Z.shiftl 1 7))) 0; Stop] 6 1).
Proof.
  apply (WriteBit_is_read_then_write 2 0xB0 0x00 7 1
           (fresh (fun _ => 0) (fun _ => 0x01))).
  - lia.
  - lia.
Defined.

(** ** What [I2CDeviceWriteBits] guarantees *)

Lemma testbit_FF (j : Z) : Z.testbit 0xFF j = (0 <=? j) && (j <? 8).
Proof. exact (Z.testbit_ones 8 j ltac:(lia)). Qed.

(** The value as the two shifts place it: bits [[s-n+1 .. s]] carry the
    low [n] bits of [v], every other bit is clear. *)
Lemma testbit_placed_value (v s n k : Z) :
  1 <= n <= 8 -> n - 1 <= s <= 7 -> 0 <= k ->
  Z.testbit (u8 (Z.shiftr (u8 (Z.shiftl v (8 - n))) (7 - s))) k
  = (k <=? s) && Z.testbit v (k - (s - n + 1)).
Proof.
  intros Hn Hs Hk.
  rewrite testbit_u8, Z.shiftr_spec, testbit_u8, Z.shiftl_spec by lia.
  replace (k + (7 - s) - (8 - n)) with (k - (s - n + 1)) by lia.
  destruct (Z.leb_spec k s) as [Hle | Hgt].
  - rewrite (proj2 (Z.ltb_lt k 8)), (proj2 (Z.ltb_lt (k + (7 - s)) 8)) by lia.
    reflexivity.
  - rewrite (proj2 (Z.ltb_ge (k + (7 - s)) 8)) by lia.
    now rewrite andb_false_r.
Qed.

(** The mask of the code: the top [n] bits and the low [9 - s - n] bits. *)
Lemma testbit_code_mask (s n k : Z) :
  1 <= n <= 8 -> n - 1 <= s <= 7 -> 0 <= k ->
  Z.testbit (u8 (Z.lor (Z.shiftl 0xFF (8 - n)) (Z.shiftr 0xFF (s + n - 1)))) k
  = (k <? 8) && ((8 - n <=? k) || (k + s + n <? 9)).
Proof.
  intros Hn Hs Hk.
  rewrite testbit_u8, Z.lor_spec, Z.shiftl_spec, Z.shiftr_spec, !testbit_FF
    by lia.
  destruct (Z.ltb_spec k 8) as [Hlt | Hge]; [|reflexivity].
  cbn [andb]. f_equal.
  - destruct (Z.leb_spec (8 - n) k).
    + rewrite (proj2 (Z.leb_le 0 (k - (8 - n)))),
        (proj2 (Z.ltb_lt (k - (8 - n)) 8)) by lia. reflexivity.
    + now rewrite (proj2 (Z.leb_gt 0 (k - (8 - n)))) by lia.
  - rewrite (proj2 (Z.leb_le 0 (k + (s + n - 1)))) by lia. cbn [andb].
    destruct (Z.ltb_spec (k + s + n) 9).
    + apply Z.ltb_lt. lia.
    + apply Z.ltb_ge. lia.
Qed.

(** X5. On the lossless bus, for every contract input,
    [I2CDeviceWriteBits] returns, changes no register but the addressed
    one, never sets a bit outside the field (a bit outside
    [[bitStart-length+1 .. bitStart]] that is 1 afterwards was 1 before),
    and sets every bit of the field whose bit of [value] is 1. *)
Theorem WriteBits_sets_value_bits_only_in_field :
  forall (fuel : nat) (dev reg bitStart len value : Z) (s : sim),
    (1 < fuel)%nat ->
    1 <= len <= 8 -> len - 1 <= bitStart <= 7 -> 0 <= value < 256 ->
    exists s' : sim,
      I2CDeviceWriteBits fuel dev reg bitStart len value s = Done (tt, s')
      /\ (forall j, 0 <= j < len -> Z.testbit value j = true ->
            Z.testbit (regs s' (Z.land dev 0xFE) reg) (bitStart - len + 1 + j)
            = true)
      /\ (forall k, k < bitStart - len + 1 \/ bitStart < k ->
            Z.testbit (regs s' (Z.land dev 0xFE) reg) k = true ->
            Z.testbit (regs s (Z.land dev 0xFE) reg) k = true)
      /\ (forall d a, (d, a) <> (Z.land dev 0xFE, reg) ->
            regs s' d a = regs s d a).
Proof.
  intros fuel dev reg bitStart len value s Hfuel Hlen Hstart Hvalue.
  destruct fuel as [|[|fuel]]; [lia | lia |].
  eexists. split; [now apply WriteBits_lossless|].
  cbn [regs]. rewrite poke_same.
  split; [|split].
  - intros j Hj Hbit.
    rewrite testbit_u8, Z.lor_spec, testbit_placed_value by lia.
    replace (bitStart - len + 1 + j - (bitStart - len + 1)) with j by lia.
    rewrite Hbit, (proj2 (Z.leb_le _ bitStart)) by lia.
    rewrite orb_true_r, andb_true_r. apply Z.ltb_lt. lia.
  - intros k Hk Hbit.
    destruct (Z.ltb_spec k 0) as [Hneg | Hpos];
      [now rewrite Z.testbit_neg_r in Hbit|].
    rewrite testbit_u8, Z.lor_spec, testbit_placed_value in Hbit by lia.
    rewrite testbit_u8, Z.land_spec in Hbit.
    assert (Hout : (k <=? bitStart)
                   && Z.testbit value (k - (bitStart - len + 1)) = false).
    { destruct Hk as [Hlow | Hhigh].
      - rewrite (Z.testbit_neg_r value) by lia. apply andb_false_r.
      - now rewrite (proj2 (Z.leb_gt k bitStart)) by lia. }
    rewrite Hout, orb_false_r in Hbit.
    destruct (Z.testbit (regs s (Z.land dev 254) reg) k); [reflexivity|].
    now rewrite !andb_false_r in Hbit.
  - intros d a Hother. unfold poke.
    destruct (Z.eqb_spec d (Z.land dev 254)) as [-> | Hd];
      destruct (Z.eqb_spec a reg) as [-> | Ha]; cbn [andb];
      try reflexivity.
    now contradiction Hother.
Qed.

Lemma WriteBits_sets_value_bits_only_in_field_witness :
  exists s' : sim,
    I2CDeviceWriteBits 2 0xB0 0x00 7 1 0 (sim_filled 0xFF) = Done (tt, s')
    /\ (forall j, 0 <= j < 1 -> Z.testbit 0 j = true ->
          Z.testbit (regs s' (Z.land 0xB0 0xFE) 0x00) (7 - 1 + 1 + j) = true)
    /\ (forall k, k < 7 - 1 + 1 \/ 7 < k ->
          Z.testbit (regs s' (Z.land 0xB0 0xFE) 0x00) k = true ->
          Z.testbit (regs (sim_filled 0xFF) (Z.land 0xB0 0xFE) 0x00) k = true)
    /\ (forall d a, (d, a) <> (Z.land 0xB0 0xFE, 0x00) ->
          regs s' d a = regs (sim_filled 0xFF) d a).
Proof.
  apply (WriteBits_sets_value_bits_only_in_field 2 0xB0 0x00 7 1 0
           (sim_filled 0xFF)).
  - lia.
  - lia.
  - lia.
  - lia.
Defined.

(** X6. Where the code's mask clears the whole field, that is for
    [bitStart >= 4] and [bitStart + length <= 7], the read-back works: on
    the lossless bus [I2CDeviceReadBits] after [I2CDeviceWriteBits] returns
    [value mod 2^length], whatever the register held. *)
Theorem WriteBits_then_ReadBits_in_cleared_zone :
  forall (fuel : nat) (dev reg bitStart len value : Z) (s : sim),
    (9 <= fuel)%nat ->
    1 <= len -> 4 <= bitStart -> bitStart + len <= 7 -> 0 <= value < 256 ->
    returned (bind (I2CDeviceWriteBits fuel dev reg bitStart len value)
                   (fun _ => I2CDeviceReadBits fuel dev reg bitStart len) s)
    = Done (value mod 2 ^ len).
Proof.
  intros fuel dev reg bitStart len value s Hfuel Hlen Hstart Hzone Hvalue.
  destruct fuel as [|[|fuel]]; [lia | lia |].
  rewrite (bind_Done _ _ _ _ _
             (WriteBits_lossless fuel dev reg bitStart len value s
                ltac:(lia) ltac:(lia) Hvalue)).
  match goal with
  | |- context [poke _ _ ?x _] => set (b2 := x)
  end.
  assert (Hb2 : 0 <= b2 < 256) by apply u8_range.
  rewrite (ReadBits_returns_field sim sim_bus (S (S fuel)) dev reg bitStart
             len b2 _ _ ltac:(lia) ltac:(lia) Hb2 Hfuel)
    by (rewrite ReadByte_lossless; cbn [regs]; now rewrite poke_same).
  cbn [returned obind fst]. f_equal.
  unfold bit_field. rewrite Z.land_ones by lia.
  apply Z.bits_inj'. intros j Hj.
  rewrite !Z.testbit_mod_pow2 by lia.
  destruct (Z.ltb_spec j len) as [Hlt | Hge]; [|reflexivity].
  cbn [andb]. rewrite Z.shiftr_spec by lia. subst b2.
  rewrite testbit_u8, Z.lor_spec, testbit_placed_value by lia.
  rewrite testbit_u8, Z.land_spec, testbit_code_mask by lia.
  replace (j + (bitStart - len + 1) - (bitStart - len + 1)) with j by lia.
  rewrite (proj2 (Z.ltb_lt (j + (bitStart - len + 1)) 8)),
    (proj2 (Z.leb_le (j + (bitStart - len + 1)) bitStart)),
    (proj2 (Z.leb_gt (8 - len) (j + (bitStart - len + 1)))),
    (proj2 (Z.ltb_ge (j + (bitStart - len + 1) + bitStart + len) 9)) by lia.
  cbn [andb orb]. now rewrite andb_false_r.
Qed.

Lemma WriteBits_then_ReadBits_in_cleared_zone_witness :
  returned (bind (I2CDeviceWriteBits 9 0xB0 0x00 4 3 2)
                 (fun _ => I2CDeviceReadBits 9 0xB0 0x00 4 3)
                 (sim_filled 0xAF))
  = Done (2 mod 2 ^ 3).
Proof.
  apply (WriteBits_then_ReadBits_in_cleared_zone 9 0xB0 0x00 4 3 2
           (sim_filled 0xAF)); lia.
Defined.

(** ** Multi-byte transfers on the lossless bus *)

Lemma advance_succ (n : nat) (p : Z) :
  advance (S n) p = advance n (u8 (p + 1)).
Proof. unfold advance. now rewrite Nat.iter_succ_r. Qed.

Lemma WriteBytes_loop_lossless (n : nat) :
  forall (i fuel : nat) (data : list Z) (d : Z) (s : sim),
    ph s = Writing d ->
    (i + n <= 255)%nat -> (i + n <= length data)%nat -> (n < fuel)%nat ->
    WriteBytes_loop fuel (Z.of_nat i) (Z.of_nat (i + n)) data s
    = Done (tt, {| regs := poke_all d (ptr s) (take n (drop i data)) (regs s);
                   ph := Writing d; ptr := advance n (ptr s) |}).
Proof.
  induction n as [|n IH]; intros i fuel data d s Hph Hi Hd Hf;
    (destruct fuel as [|fuel]; [lia|]); cbn [WriteBytes_loop].
  - rewrite Nat.add_0_r, Z.ltb_irrefl. destruct s as [r p q].
    cbn in Hph. subst p. reflexivity.
  - assert (Hlt : (Z.of_nat i <? Z.of_nat (i + S n)) = true)
      by (apply Z.ltb_lt; lia).
    rewrite Hlt.
    destruct (lookup_lt_is_Some_2 data i ltac:(lia)) as [x Hx].
    assert (Hload : load data (Z.of_nat i) = Done x).
    { unfold load.
      assert (H0 : (0 <=? Z.of_nat i) = true) by (apply Z.leb_le; lia).
      now rewrite H0, Nat2Z.id, Hx. }
    rewrite Hload, (bind_Done _ _ s x s) by reflexivity.
    assert (Hwrite : I2CWrite x s
                     = Done (0, {| regs := poke d (ptr s) x (regs s);
                                   ph := Writing d; ptr := u8 (ptr s + 1) |})).
    { cbn [I2CWrite sim_bus]. unfold sim_write. now rewrite Hph. }
    rewrite (bind_Done _ _ _ _ _ Hwrite).
    rewrite u8_succ_nat by lia.
    replace (i + S n)%nat with (S i + n)%nat by lia.
    rewrite (IH (S i) fuel data d) by (try reflexivity; lia).
    cbn [regs ptr]. rewrite (drop_S _ _ _ Hx), advance_succ. reflexivity.
Qed.

Lemma ReadBytes_loop_lossless (n : nat) :
  forall (i fuel : nat) (data : list Z) (d : Z) (s : sim),
    ph s = Reading d ->
    (i + n <= 255)%nat -> (i + n <= length data)%nat -> (n < fuel)%nat ->
    ReadBytes_loop fuel (Z.of_nat i) (Z.of_nat (i + n)) data s
    = Done (take i data ++ peek_all d (ptr s) n (regs s) ++ drop (i + n) data,
            {| regs := regs s; ph := Reading d; ptr := advance n (ptr s) |}).
Proof.
  induction n as [|n IH]; intros i fuel data d s Hph Hi Hd Hf;
    (destruct fuel as [|fuel]; [lia|]); cbn [ReadBytes_loop].
  - rewrite Nat.add_0_r, Z.ltb_irrefl. destruct s as [r p q].
    cbn in Hph. subst p. cbn [peek_all app]. now rewrite take_drop.
  - assert (Hlt : (Z.of_nat i <? Z.of_nat (i + S n)) = true)
      by (apply Z.ltb_lt; lia).
    rewrite Hlt.
    set (x := regs s d (ptr s)).
    assert (Hread : I2CRead s
                    = Done (x, {| regs := regs s; ph := Reading d;
                                  ptr := u8 (ptr s + 1) |})).
    { cbn [I2CRead sim_bus]. unfold sim_read. now rewrite Hph. }
    rewrite (bind_Done _ _ _ _ _ Hread).
    assert (Hstore : store data (Z.of_nat i) x = Done (<[i := x]> data)).
    { unfold store.
      assert (H0 : (0 <=? Z.of_nat i) = true) by (apply Z.leb_le; lia).
      assert (H1 : (Z.of_nat i <? Z.of_nat (length data)) = true)
        by (apply Z.ltb_lt; lia).
      now rewrite H0, H1, Nat2Z.id. }
    rewrite Hstore, (bind_Done _ _ _ _ _ (lift_Done _ _)).
    assert (Hack : forall c : bool,
      (if c then I2CNotAck else I2CAck)
        {| regs := regs s; ph := Reading d; ptr := u8 (ptr s + 1) |}
      = Done (tt, {| regs := regs s; ph := Reading d;
                     ptr := u8 (ptr s + 1) |})).
    { intros []; reflexivity. }
    rewrite (bind_Done _ _ _ _ _ (Hack _)).
    rewrite u8_succ_nat by lia.
    replace (i + S n)%nat with (S i + n)%nat by lia.
    rewrite (IH (S i) fuel _ d) by (rewrite ?length_insert; try reflexivity; lia).
    cbn [regs ptr peek_all]. rewrite advance_succ.
    rewrite (take_S_r _ _ x) by (apply list_lookup_insert_eq; lia).
    rewrite take_insert_ge, drop_insert_lt by lia.
    rewrite <- app_assoc. reflexivity.
Qed.

Lemma WriteBytes_lossless (fuel : nat) (dev reg : Z) (n : nat)
    (data : list Z) (s : sim) :
  (n <= 255)%nat -> (n <= length data)%nat -> (n < fuel)%nat ->
  I2CDeviceWriteBytes fuel dev reg (Z.of_nat n) data s
  = Done (tt, {| regs := poke_all (Z.land dev 0xFE) reg (take n data) (regs s);
                 ph := Idle; ptr := advance n reg |}).
Proof.
  intros Hn Hd Hf. unfold I2CDeviceWriteBytes.
  assert (Haddress :
    bind I2CStart (fun _ =>
      bind (I2CWrite (u8 (Z.land dev 0xFE))) (fun _ => I2CWrite reg)) s
    = Done (0, {| regs := regs s; ph := Writing (Z.land dev 0xFE);
                  ptr := reg |})).
  { rewrite u8_land_FE. sim_steps. rewrite write_address_bit.
    sim_steps. now rewrite write_address_device. }
  unfold bind in Haddress |- *.
  destruct (I2CStart s) as [[[] s1]| |]; try discriminate.
  destruct (I2CWrite (u8 (Z.land dev 254)) s1) as [[z1 s2]| |];
    try discriminate.
  rewrite Haddress.
  rewrite (WriteBytes_loop_lossless n 0 fuel data (Z.land dev 0xFE))
    by (try reflexivity; lia).
  cbn [regs ptr]. now rewrite drop_0.
Qed.

Lemma ReadBytes_lossless (fuel : nat) (dev reg : Z) (n : nat)
    (data : list Z) (s : sim) :
  (n <= 255)%nat -> (n <= length data)%nat -> (n < fuel)%nat ->
  I2CDeviceReadBytes fuel dev reg (Z.of_nat n) data s
  = Done (peek_all (Z.land dev 0xFE) reg n (regs s) ++ drop n data,
          {| regs := regs s; ph := Idle; ptr := advance n reg |}).
Proof.
  intros Hn Hd Hf. unfold I2CDeviceReadBytes.
  assert (Haddress :
    bind I2CStart (fun _ =>
      bind (I2CWrite (u8 (Z.land dev 0xFE))) (fun _ =>
        bind (I2CWrite reg) (fun _ =>
          bind I2CRestart (fun _ => I2CWrite (u8 (Z.lor dev 0x01)))))) s
    = Done (0, {| regs := regs s; ph := Reading (Z.land dev 0xFE);
                  ptr := reg |})).
  { rewrite u8_land_FE. sim_steps. rewrite write_address_bit.
    sim_steps. now rewrite read_address_bit, read_address_device. }
  unfold bind in Haddress |- *.
  destruct (I2CStart s) as [[[] s1]| |]; try discriminate.
  destruct (I2CWrite (u8 (Z.land dev 254)) s1) as [[z1 s2]| |];
    try discriminate.
  destruct (I2CWrite reg s2) as [[z2 s3]| |]; try discriminate.
  destruct (I2CRestart s3) as [[[] s4]| |]; try discriminate.
  rewrite Haddress.
  rewrite (ReadBytes_loop_lossless n 0 fuel data (Z.land dev 0xFE))
    by (try reflexivity; lia).
  cbn [regs ptr]. now rewrite take_0.
Qed.

Lemma u8_add_u8_l (a b : Z) : u8 (u8 a + b) = u8 (a + b).
Proof. unfold u8. apply Z.add_mod_idemp_l. lia. Qed.

Lemma poke_all_frame (d : Z) (xs : list Z) :
  forall (q : Z) (r : Z -> Z -> Z) (d' a : Z),
    0 <= q < 256 ->
    d' <> d \/ a < 0 \/ 256 <= a \/ Z.of_nat (length xs) <= (a - q) mod 256 ->
    poke_all d q xs r d' a = r d' a.
Proof.
  induction xs as [|x xs IH]; intros q r d' a Hq Hfar; cbn [poke_all];
    [reflexivity|].
  rewrite IH.
  - unfold poke.
    destruct (Z.eqb_spec d' d) as [-> | Hd]; [|reflexivity].
    destruct (Z.eqb_spec a q) as [-> | Ha]; [|reflexivity].
    exfalso. cbn [length] in Hfar.
    rewrite Z.sub_diag, Z.mod_0_l in Hfar by lia. lia.
  - apply u8_range.
  - cbn [length] in Hfar. unfold u8.
    destruct Hfar as [Hd | [Hneg | [Hbig | Hfar]]]; [tauto | tauto | tauto |].
    right. right. right.
    Z.to_euclidean_division_equations. lia.
Qed.

Lemma peek_poke_all (d : Z) (xs : list Z) :
  forall (q : Z) (r : Z -> Z -> Z),
    0 <= q < 256 -> (length xs <= 256)%nat ->
    peek_all d q (length xs) (poke_all d q xs r) = xs.
Proof.
  induction xs as [|x xs IH]; intros q r Hq Hlen; [reflexivity|].
  cbn [length peek_all poke_all]. cbn [length] in Hlen. f_equal.
  - rewrite poke_all_frame; [apply poke_same | apply u8_range |].
    right. right. right. unfold u8.
    Z.to_euclidean_division_equations. lia.
  - apply IH; [apply u8_range | lia].
Qed.

Lemma peek_all_lookup (d : Z) (r : Z -> Z -> Z) (n : nat) :
  forall (q : Z) (i : nat),
    (i < n)%nat -> peek_all d q n r !! i = Some (r d (advance i q)).
Proof.
  induction n as [|n IH]; intros q i Hi; [lia|].
  destruct i as [|i]; [reflexivity|].
  cbn [peek_all]. rewrite advance_succ. apply (IH (u8 (q + 1)) i). lia.
Qed.

Lemma advance_byte (n : nat) :
  forall p, 0 <= p < 256 -> advance n p = u8 (p + Z.of_nat n).
Proof.
  induction n as [|n IH]; intros p Hp.
  - cbn. rewrite Z.add_0_r. symmetry. now apply u8_small.
  - rewrite advance_succ, IH by apply u8_range.
    rewrite u8_add_u8_l. f_equal. lia.
Qed.

(** X2. Round trip of the byte transactions: on the lossless bus,
    [I2CDeviceReadBytes] of [len] bytes from a register, right after
    [I2CDeviceWriteBytes] of [len] bytes to the same register of the same
    device, fills the first [len] cells of the caller's buffer with the
    bytes written, in order, and leaves its other cells alone. *)
Theorem WriteBytes_then_ReadBytes_round_trip :
  forall (fuel : nat) (dev reg len : Z) (data out : list Z) (s : sim),
    0 <= len <= 255 -> 0 <= reg < 256 ->
    len <= Z.of_nat (length data) -> len <= Z.of_nat (length out) ->
    (Z.to_nat len < fuel)%nat ->
    returned (bind (I2CDeviceWriteBytes fuel dev reg len data)
                   (fun _ => I2CDeviceReadBytes fuel dev reg len out) s)
    = Done (take (Z.to_nat len) data ++ drop (Z.to_nat len) out).
Proof.
  intros fuel dev reg len data out s Hlen Hreg Hdata Hout Hfuel.
  set (n := Z.to_nat len) in *.
  assert (Hn : len = Z.of_nat n) by (subst n; lia).
  clearbody n. subst len.
  rewrite (bind_Done _ _ _ _ _
             (WriteBytes_lossless fuel dev reg n data s
                ltac:(lia) ltac:(lia) Hfuel)).
  rewrite ReadBytes_lossless by lia.
  cbn [returned obind fst regs]. do 2 f_equal.
  rewrite <- (length_take_le data n) at 1 by lia.
  apply peek_poke_all; [assumption | rewrite length_take; lia].
Qed.

Lemma WriteBytes_then_ReadBytes_round_trip_witness :
  returned (bind (I2CDeviceWriteBytes 4 0xB0 0xFE 3 [0x11; 0x22; 0x33; 0x44])
                 (fun _ => I2CDeviceReadBytes 4 0xB0 0xFE 3 [0; 0; 0; 0x99])
                 (sim_filled 0x00))
  = Done (take (Z.to_nat 3) [0x11; 0x22; 0x33; 0x44]
          ++ drop (Z.to_nat 3) [0; 0; 0; 0x99]).
Proof.
  apply (WriteBytes_then_ReadBytes_round_trip 4 0xB0 0xFE 3
           [0x11; 0x22; 0x33; 0x44] [0; 0; 0; 0x99] (sim_filled 0x00)).
  - lia.
  - lia.
  - cbn [length]. lia.
  - cbn [length]. lia.
  - cbn. lia.
Defined.

(** X3. On the lossless bus [I2CDeviceWriteBytes] stores byte [i] of the
    buffer at register [(reg + i) mod 256] of the addressed device, for
    every [i < len], and changes no other register: not of another device,
    and not at an address [len] or more places after [reg] (mod 256). With
    [len = 0] it changes nothing. *)
Theorem WriteBytes_stores_consecutive_registers :
  forall (fuel : nat) (dev reg len : Z) (data : list Z) (s : sim),
    0 <= len <= 255 -> 0 <= reg < 256 ->
    len <= Z.of_nat (length data) -> (Z.to_nat len < fuel)%nat ->
    exists s' : sim,
      I2CDeviceWriteBytes fuel dev reg len data s = Done (tt, s')
      /\ (forall (i : nat) (x : Z),
            Z.of_nat i < len -> data !! i = Some x ->
            regs s' (Z.land dev 0xFE) (u8 (reg + Z.of_nat i)) = x)
      /\ (forall d a,
            d <> Z.land dev 0xFE \/ a < 0 \/ 256 <= a
            \/ len <= (a - reg) mod 256 ->
            regs s' d a = regs s d a).
Proof.
  intros fuel dev reg len data s Hlen Hreg Hdata Hfuel.
  eexists. split; [|split].
  - rewrite <- (Z2Nat.id len) at 1 by lia.
    apply WriteBytes_lossless; lia.
  - intros i x Hi Hx. cbn [regs].
    set (xs := take (Z.to_nat len) data).
    assert (Hxs : length xs = Z.to_nat len)
      by (subst xs; rewrite length_take; lia).
    pose proof (peek_poke_all (Z.land dev 0xFE) xs reg (regs s) Hreg
                  ltac:(lia)) as Hpeek.
    assert (Hlook : xs !! i = Some x)
      by (subst xs; rewrite lookup_take_lt by lia; exact Hx).
    rewrite <- Hpeek, peek_all_lookup in Hlook by lia.
    rewrite advance_byte in Hlook by assumption. congruence.
  - intros d a Hfar. cbn [regs]. apply poke_all_frame; [assumption|].
    rewrite length_take.
    destruct Hfar as [Hd | [Hneg | [Hbig | Hfar]]]; [tauto | tauto | tauto |].
    right. right. right. lia.
Qed.

Lemma WriteBytes_stores_consecutive_registers_witness :
  exists s' : sim,
    I2CDeviceWriteBytes 4 0xB0 0xFE 3 [0x11; 0x22; 0x33; 0x44]
                        (sim_filled 0x00) = Done (tt, s')
    /\ (forall (i : nat) (x : Z),
          Z.of_nat i < 3 -> [0x11; 0x22; 0x33; 0x44] !! i = Some x ->
          regs s' (Z.land 0xB0 0xFE) (u8 (0xFE + Z.of_nat i)) = x)
    /\ (forall d a,
          d <> Z.land 0xB0 0xFE \/ a < 0 \/ 256 <= a
          \/ 3 <= (a - 0xFE) mod 256 ->
          regs s' d a = regs (sim_filled 0x00) d a).
Proof.
  apply (WriteBytes_stores_consecutive_registers 4 0xB0 0xFE 3
           [0x11; 0x22; 0x33; 0x44] (sim_filled 0x00)).
  - lia.
  - lia.
  - cbn [length]. lia.
  - cbn. lia.
Defined.

(** ** The AD524X driver *)

(** One bit of an instruction byte, computed from the same bit of the byte
    before: the masks are constants. *)
Ltac instruction_bit st :=
  rewrite ?testbit_u8, ?Z.land_spec, ?Z.lor_spec,
    ?testbit_u8, ?Z.land_spec, ?Z.lor_spec;
  repeat match goal with
         | |- context [Z.testbit (AD524X.instructionByte st) ?k] =>
             generalize (Z.testbit (AD524X.instructionByte st) k)
         end;
  intros; repeat match goal with b : bool |- _ => destruct b end;
  reflexivity.

(** What one request does: two calls, and bits 7, 6, 4 and 3 of the byte it
    sends and of the byte it leaves. *)
Lemma serve_step (A : Z) (r : AD524X.request) (st : AD524X.driver) :
  let bit k := Z.testbit (AD524X.instructionByte st) k in
  let bit' k := Z.testbit (AD524X.instructionByte (AD524X.serve A r st)) k in
  exists ib,
    AD524X.calls (AD524X.serve A r st)
    = AD524X.calls st ++ [AD524X.SetDeviceAddress A; AD524X.write_call r ib]
    /\ Z.testbit ib 7 = AD524X.rdac2_after (bit 7) r
    /\ Z.testbit ib 6 = AD524X.is_midscale r || bit 6
    /\ Z.testbit ib 4 = AD524X.output1_after (bit 4) r
    /\ Z.testbit ib 3 = AD524X.output2_after (bit 3) r
    /\ bit' 7 = AD524X.rdac2_after (bit 7) r
    /\ bit' 6 = negb (AD524X.is_midscale r) && bit 6
    /\ bit' 4 = AD524X.output1_after (bit 4) r
    /\ bit' 3 = AD524X.output2_after (bit 3) r.
Proof.
  intros bit bit'. subst bit bit'. cbv beta.
  destruct r; eexists;
    (split; [cbn [AD524X.serve AD524X.AD524XSetRDAC1Value
                  AD524X.AD524XSetRDAC2Value AD524X.AD524XSetOutput1
                  AD524X.AD524XSetOutput2 AD524X.AD524XClearOutput1
                  AD524X.AD524XClearOutput2 AD524X.AD524XSetRDAC1Midscale
                  AD524X.AD524XSetRDAC2Midscale AD524X.assign AD524X.call
                  AD524X.calls AD524X.instructionByte AD524X.write_call];
             rewrite <- app_assoc; reflexivity|]);
    cbn [AD524X.serve AD524X.AD524XSetRDAC1Value
         AD524X.AD524XSetRDAC2Value AD524X.AD524XSetOutput1
         AD524X.AD524XSetOutput2 AD524X.AD524XClearOutput1
         AD524X.AD524XClearOutput2 AD524X.AD524XSetRDAC1Midscale
         AD524X.AD524XSetRDAC2Midscale AD524X.assign AD524X.call
         AD524X.calls AD524X.instructionByte
         AD524X.rdac2_after AD524X.is_midscale AD524X.output1_after
         AD524X.output2_after];
    repeat split; instruction_bit st.
Qed.

Lemma serve_all_snoc (A : Z) (rs : list AD524X.request) (r : AD524X.request)
    (st : AD524X.driver) :
  AD524X.serve_all A (rs ++ [r]) st
  = AD524X.serve A r (AD524X.serve_all A rs st).
Proof. unfold AD524X.serve_all. now rewrite fold_left_app. Qed.

(** The bits of the instruction byte after a program. *)
Lemma serve_all_bits (A : Z) (rs : list AD524X.request) :
  forall st : AD524X.driver,
    let bit k := Z.testbit (AD524X.instructionByte st) k in
    let bit' k :=
      Z.testbit (AD524X.instructionByte (AD524X.serve_all A rs st)) k in
    bit' 7 = fold_left AD524X.rdac2_after rs (bit 7)
    /\ (bit 6 = false -> bit' 6 = false)
    /\ bit' 4 = fold_left AD524X.output1_after rs (bit 4)
    /\ bit' 3 = fold_left AD524X.output2_after rs (bit 3).
Proof.
  induction rs as [|r rs IH]; intros st bit bit'; subst bit bit'; cbv beta.
  - cbn. tauto.
  - cbn [AD524X.serve_all fold_left].
    destruct (serve_step A r st)
      as (ib & _ & _ & _ & _ & _ & H7 & H6 & H4 & H3).
    cbv beta in H7, H6, H4, H3.
    destruct (IH (AD524X.serve A r st)) as (I7 & I6 & I4 & I3).
    cbv beta in I7, I6, I4, I3. unfold AD524X.serve_all in *.
    rewrite I7, I4, I3, H7, H4, H3. repeat split.
    intros Hclear. apply I6. rewrite H6, Hclear. apply andb_false_r.
Qed.

(** X10. The midscale command is one-shot. If bit 6 of [instructionByte]
    is clear to begin with (it is at power-on), then after any program of
    driver calls the next call sends the device address and one write whose
    instruction byte has bit 6 set exactly when the call is one of the two
    midscale functions, and it leaves bit 6 clear again: a value write or
    an output change never repeats a midscale reset. *)
Theorem midscale_bit_is_one_shot :
  forall (A : Z) (rs : list AD524X.request) (r : AD524X.request)
         (st : AD524X.driver),
    Z.testbit (AD524X.instructionByte st) 6 = false ->
    let st1 := AD524X.serve_all A rs st in
    exists ib,
      AD524X.calls (AD524X.serve A r st1)
      = AD524X.calls st1
        ++ [AD524X.SetDeviceAddress A; AD524X.write_call r ib]
      /\ Z.testbit ib 6 = AD524X.is_midscale r
      /\ Z.testbit (AD524X.instructionByte (AD524X.serve A r st1)) 6 = false.
Proof.
  intros A rs r st Hclear st1.
  destruct (serve_all_bits A rs st) as (_ & H6 & _). cbv beta in H6.
  specialize (H6 Hclear). fold st1 in H6.
  destruct (serve_step A r st1) as (ib & Hcalls & _ & S6 & _ & _ & _ & S6' & _).
  cbv beta in S6, S6'. exists ib. split; [exact Hcalls|]. split.
  - rewrite S6, H6. apply orb_false_r.
  - rewrite S6', H6. apply andb_false_r.
Qed.

Lemma midscale_bit_is_one_shot_witness :
  exists ib,
    AD524X.calls
      (AD524X.serve 0x58 (AD524X.SetRDAC1Value 0x80)
         (AD524X.serve_all 0x58 [AD524X.SetOutput1; AD524X.SetRDAC1Midscale]
            AD524X.power_on))
    = AD524X.calls
        (AD524X.serve_all 0x58 [AD524X.SetOutput1; AD524X.SetRDAC1Midscale]
           AD524X.power_on)
      ++ [AD524X.SetDeviceAddress 0x58;
          AD524X.write_call (AD524X.SetRDAC1Value 0x80) ib]
    /\ Z.testbit ib 6 = AD524X.is_midscale (AD524X.SetRDAC1Value 0x80)
    /\ Z.testbit
         (AD524X.instructionByte
            (AD524X.serve 0x58 (AD524X.SetRDAC1Value 0x80)
               (AD524X.serve_all 0x58
                  [AD524X.SetOutput1; AD524X.SetRDAC1Midscale]
                  AD524X.power_on))) 6 = false.
Proof.
  apply (midscale_bit_is_one_shot 0x58
           [AD524X.SetOutput1; AD524X.SetRDAC1Midscale]
           (AD524X.SetRDAC1Value 0x80) AD524X.power_on).
  reflexivity.
Defined.

(** X11. The output flags persist. After any program of driver calls, the
    instruction byte the next call sends carries, in bit 4, the flag of the
    last [AD524XSetOutput1] (1) or [AD524XClearOutput1] (0) so far, this
    call included, and in bit 3 the same for output 2; without any such
    call the bit is the one [instructionByte] started with. No other
    function changes them. *)
Theorem output_flags_follow_last_request :
  forall (A : Z) (rs : list AD524X.request) (r : AD524X.request)
         (st : AD524X.driver),
    let st1 := AD524X.serve_all A rs st in
    exists ib,
      AD524X.calls (AD524X.serve A r st1)
      = AD524X.calls st1
        ++ [AD524X.SetDeviceAddress A; AD524X.write_call r ib]
      /\ Z.testbit ib 4
         = fold_left AD524X.output1_after (rs ++ [r])
                     (Z.testbit (AD524X.instructionByte st) 4)
      /\ Z.testbit ib 3
         = fold_left AD524X.output2_after (rs ++ [r])
                     (Z.testbit (AD524X.instructionByte st) 3).
Proof.
  intros A rs r st st1.
  destruct (serve_all_bits A rs st) as (_ & _ & H4 & H3).
  cbv beta in H4, H3. fold st1 in H4, H3.
  destruct (serve_step A r st1) as (ib & Hcalls & _ & _ & S4 & S3 & _).
  cbv beta in S4, S3. exists ib. split; [exact Hcalls|].
  rewrite !fold_left_app. cbn [fold_left]. now rewrite S4, S3, H4, H3.
Qed.

(** X12. Bit 7, which selects the RDAC, is cleared by [AD524XSetRDAC1Value]
    and set by [AD524XSetRDAC2Value] and [AD524XSetRDAC2Midscale]; no other
    function touches it, [AD524XSetRDAC1Midscale] included. So the
    instruction byte a call sends has in bit 7 what the last of those three
    left, and [AD524XSetRDAC1Midscale] called after
    [AD524XSetRDAC2Value] sends bits 7 and 6 both set, the byte
    [AD524XSetRDAC2Midscale] would send. *)
Theorem rdac_selection_follows_history :
  forall (A : Z) (rs : list AD524X.request) (st : AD524X.driver),
    (forall r : AD524X.request,
        exists ib,
          AD524X.calls (AD524X.serve A r (AD524X.serve_all A rs st))
          = AD524X.calls (AD524X.serve_all A rs st)
            ++ [AD524X.SetDeviceAddress A; AD524X.write_call r ib]
          /\ Z.testbit ib 7
             = fold_left AD524X.rdac2_after (rs ++ [r])
                         (Z.testbit (AD524X.instructionByte st) 7))
    /\ (forall v : Z,
          exists ib,
            AD524X.calls
              (AD524X.serve A AD524X.SetRDAC1Midscale
                 (AD524X.serve_all A (rs ++ [AD524X.SetRDAC2Value v]) st))
            = AD524X.calls
                (AD524X.serve_all A (rs ++ [AD524X.SetRDAC2Value v]) st)
              ++ [AD524X.SetDeviceAddress A; AD524X.WriteBytes ib 0 0x00]
            /\ Z.testbit ib 7 = true /\ Z.testbit ib 6 = true).
Proof.
  intros A rs st.
  assert (Hgeneral : forall rs0 r,
    exists ib,
      AD524X.calls (AD524X.serve A r (AD524X.serve_all A rs0 st))
      = AD524X.calls (AD524X.serve_all A rs0 st)
        ++ [AD524X.SetDeviceAddress A; AD524X.write_call r ib]
      /\ Z.testbit ib 7
         = fold_left AD524X.rdac2_after (rs0 ++ [r])
                     (Z.testbit (AD524X.instructionByte st) 7)
      /\ Z.testbit ib 6
         = AD524X.is_midscale r
           || Z.testbit (AD524X.instructionByte (AD524X.serve_all A rs0 st)) 6).
  { intros rs0 r.
    destruct (serve_all_bits A rs0 st) as (H7 & _). cbv beta in H7.
    destruct (serve_step A r (AD524X.serve_all A rs0 st))
      as (ib & Hcalls & S7 & S6 & _).
    cbv beta in S7, S6. exists ib. split; [exact Hcalls|]. split.
    - rewrite fold_left_app. cbn [fold_left]. now rewrite S7, H7.
    - exact S6. }
  split.
  - intros r. destruct (Hgeneral rs r) as (ib & Hcalls & H7 & _).
    exists ib. now split.
  - intros v.
    destruct (Hgeneral (rs ++ [AD524X.SetRDAC2Value v]) AD524X.SetRDAC1Midscale)
      as (ib & Hcalls & H7 & H6).
    exists ib. split; [exact Hcalls|]. split.
    + rewrite H7, !fold_left_app. reflexivity.
    + rewrite H6. reflexivity.
Qed.

(** ** Bit positions beyond the byte *)

Lemma shl_int_one_high (p : Z) :
  8 <= p <= 14 -> shl_int 1 p = Some (Z.shiftl 1 p).
Proof.
  intros Hp.
  assert (Hcases : p = 8 \/ p = 9 \/ p = 10 \/ p = 11 \/ p = 12 \/ p = 13
                   \/ p = 14) by lia.
  repeat (destruct Hcases as [-> | Hcases]; [reflexivity|]).
  now subst.
Qed.

Lemma testbit_one_shifted_high (p k : Z) :
  8 <= p -> k < 8 -> Z.testbit (Z.shiftl 1 p) k = false.
Proof.
  intros Hp Hk. rewrite testbit_one_shifted by lia.
  apply Z.eqb_neq. lia.
Qed.

Lemma u8_ignores_high_bit (b p : Z) :
  8 <= p ->
  u8 (Z.land b (Z.shiftl 1 p)) = 0
  /\ u8 (Z.lor b (Z.shiftl 1 p)) = u8 b
  /\ u8 (Z.land b (Z.lnot (Z.shiftl 1 p))) = u8 b.
Proof.
  intros Hp. repeat split; apply Z.bits_inj'; intros k Hk;
    rewrite ?Z.bits_0, !testbit_u8, ?Z.land_spec, ?Z.lor_spec, ?Z.lnot_spec
      by lia;
    (destruct (Z.ltb_spec k 8) as [Hlt | Hge]; [|reflexivity]);
    rewrite testbit_one_shifted_high by lia; cbn [negb andb];
    now rewrite ?andb_false_r, ?orb_false_r, ?andb_true_r.
Qed.

(** X13. The bit position is not checked. For a position in [8,14] the
    mask [1 << _bit] lies above the byte: [I2CDeviceReadBit] returns 0
    whatever the register holds, and [I2CDeviceWriteBit] still performs its
    read and its write but writes the byte it read back unchanged, for a
    true and for a false value alike. *)
Theorem bit_position_beyond_byte_is_ignored :
  forall (fuel : nat) (dev reg p value : Z) (s : sim),
    (1 < fuel)%nat -> 8 <= p <= 14 ->
    0 <= regs s (Z.land dev 0xFE) reg < 256 ->
    returned (I2CDeviceReadBit fuel dev reg p s) = Done 0
    /\ exists s' : sim,
         I2CDeviceWriteBit fuel dev reg p value s = Done (tt, s')
         /\ forall d a, regs s' d a = regs s d a.
Proof.
  intros fuel dev reg p value s Hfuel Hp Hb.
  destruct fuel as [|[|fuel]]; [lia | lia |].
  destruct (u8_ignores_high_bit (regs s (Z.land dev 0xFE) reg) p ltac:(lia))
    as (Hand & Hor & Hclear).
  split.
  - unfold I2CDeviceReadBit.
    rewrite (bind_Done _ _ _ _ _ (ReadByte_lossless fuel dev reg s)).
    rewrite shl_int_one_high by lia. cbn [ub lift obind bind ret returned fst].
    now rewrite Hand.
  - eexists. split.
    + unfold I2CDeviceWriteBit.
      rewrite (bind_Done _ _ _ _ _ (ReadByte_lossless fuel dev reg s)).
      rewrite shl_int_one_high by lia. cbn [ub lift obind bind].
      now rewrite WriteByte_lossless.
    + intros d a. cbn [regs]. unfold poke.
      destruct (Z.eqb_spec d (Z.land dev 254)) as [-> | Hd];
        destruct (Z.eqb_spec a reg) as [-> | Ha]; cbn [andb];
        try reflexivity.
      destruct (value =? 0); [rewrite Hclear | rewrite Hor];
        now apply u8_small.
Qed.

Lemma bit_position_beyond_byte_is_ignored_witness :
  returned (I2CDeviceReadBit 2 0xB0 0x00 8 (sim_filled 0xFF)) = Done 0
  /\ exists s' : sim,
       I2CDeviceWriteBit 2 0xB0 0x00 8 1 (sim_filled 0xFF) = Done (tt, s')
       /\ forall d a, regs s' d a = regs (sim_filled 0xFF) d a.
Proof.
  apply (bit_position_beyond_byte_is_ignored 2 0xB0 0x00 8 1 (sim_filled 0xFF)).
  - lia.
  - lia.
  - cbn. lia.
Defined.
